(** * coopurl: a URL shortener on top of a key-value store

    A shallow embedding of [coopurl.go] (package [coopurl]) and the
    properties of [Post], [Get], [generateId] and [ServeHTTP].

    The package leans on libraries that are not part of the repository.
    They are modelled here after their own sources, as far as the
    package uses them: [strings], [crypto/sha256], [fmt], [net/url],
    [path] and [net/http] of the Go standard library (Go 1.19 and
    later), and the transactions of badger v3.  What the environment
    decides is a parameter: how a reading of the clock prints
    ([Clock]) and what [badger.Open] finds on disk ([Storage]).

    Go strings are byte sequences: they are modelled as [string], a list
    of 8-bit [ascii] characters.  Go's [int] and [time.Duration] are
    modelled as [Z]; the code only compares them, so no wrap-around
    occurs.  A function that returns [(T, error)] returns a [result T];
    every error return of the package pairs the error with the zero
    value.  A function that can panic returns an [outcome].  The
    handler is passed by pointer in Go; here every method returns the
    handler it leaves. *)

From Stdlib Require Import ZArith Lia List Ascii String Bool.
From stdpp Require Import base option strings gmap.
Import ListNotations.

Local Open Scope string_scope.
Local Open Scope Z_scope.

(** ** Bytes and the [strings] package *)

Module Strings.

Definition byte_of (c : ascii) : Z := Z.of_N (N_of_ascii c).
Definition ascii_of (b : Z) : ascii := ascii_of_N (Z.to_N b).

(** [lo <= c && c <= hi] on bytes. *)
Definition between (lo hi c : ascii) : bool :=
  (byte_of lo <=? byte_of c) && (byte_of c <=? byte_of hi).

Definition eqb_byte (a b : ascii) : bool := Ascii.eqb a b.

(** [strings.IndexByte]: index of the first occurrence of [c]. *)
Fixpoint IndexByte (s : string) (c : ascii) : option nat :=
  match s with
  | EmptyString => None
  | String x r => if eqb_byte x c then Some O else S <$> IndexByte r c
  end.

(** [strings.LastIndexByte]. *)
Fixpoint LastIndexByte (s : string) (c : ascii) : option nat :=
  match s with
  | EmptyString => None
  | String x r =>
      match LastIndexByte r c with
      | Some i => Some (S i)
      | None => if eqb_byte x c then Some O else None
      end
  end.

(** [s[:n]] and [s[n:]] for an index already known to be in range. *)
Definition take (n : nat) (s : string) : string := String.substring 0 n s.
Definition drop (n : nat) (s : string) : string :=
  String.substring n (String.length s - n) s.

(** [strings.Cut(s, sep)] for a one-byte separator. *)
Definition Cut (s : string) (sep : ascii) : string * string * bool :=
  match IndexByte s sep with
  | Some i => (take i s, drop (S i) s, true)
  | None => (s, "", false)
  end.

Definition HasPrefix (s p : string) : bool := String.prefix p s.

Definition HasSuffix (s p : string) : bool :=
  (String.length p <=? String.length s)%nat
  && String.eqb (drop (String.length s - String.length p) s) p.

Definition ContainsByte (s : string) (c : ascii) : bool :=
  match IndexByte s c with Some _ => true | None => false end.

Fixpoint CountByte (s : string) (c : ascii) : nat :=
  match s with
  | EmptyString => O
  | String x r => ((if eqb_byte x c then 1 else 0) + CountByte r c)%nat
  end.

(** [strings.Index(s, sub)]. *)
Definition Index (s sub : string) : option nat := String.index 0 sub s.

Definition lower_byte (c : ascii) : ascii :=
  if between "A" "Z" c then ascii_of (byte_of c + 32) else c.

Fixpoint map_bytes (f : ascii -> ascii) (s : string) : string :=
  match s with
  | EmptyString => EmptyString
  | String x r => String (f x) (map_bytes f r)
  end.

(** [strings.ToLower], on the ASCII strings it is applied to here. *)
Definition ToLower (s : string) : string := map_bytes lower_byte s.

Fixpoint forall_bytes (p : ascii -> bool) (s : string) : bool :=
  match s with
  | EmptyString => true
  | String x r => p x && forall_bytes p r
  end.

Fixpoint exists_bytes (p : ascii -> bool) (s : string) : bool :=
  match s with
  | EmptyString => false
  | String x r => p x || exists_bytes p r
  end.

Definition bytes (s : string) : list Z := map byte_of (list_ascii_of_string s).

End Strings.

(** ** [crypto/sha256]: the SHA-256 compression function of FIPS 180-4,
       on 32-bit words held in [Z] *)

Module sha256.

Definition mask32 : Z := 0xffffffff.

Definition add32 (x y : Z) : Z := Z.land (x + y) mask32.

(** [bits.RotateLeft32(x, -n)]. *)
Definition rotr (x n : Z) : Z :=
  Z.land (Z.lor (Z.shiftr x n) (Z.shiftl x (32 - n))) mask32.

Definition not32 (x : Z) : Z := Z.lxor x mask32.

(** The round constants, four to a row. *)
Definition _K : list Z :=
  concat
    [ [0x428a2f98; 0x71374491; 0xb5c0fbcf; 0xe9b5dba5];
      [0x3956c25b; 0x59f111f1; 0x923f82a4; 0xab1c5ed5];
      [0xd807aa98; 0x12835b01; 0x243185be; 0x550c7dc3];
      [0x72be5d74; 0x80deb1fe; 0x9bdc06a7; 0xc19bf174];
      [0xe49b69c1; 0xefbe4786; 0x0fc19dc6; 0x240ca1cc];
      [0x2de92c6f; 0x4a7484aa; 0x5cb0a9dc; 0x76f988da];
      [0x983e5152; 0xa831c66d; 0xb00327c8; 0xbf597fc7];
      [0xc6e00bf3; 0xd5a79147; 0x06ca6351; 0x14292967];
      [0x27b70a85; 0x2e1b2138; 0x4d2c6dfc; 0x53380d13];
      [0x650a7354; 0x766a0abb; 0x81c2c92e; 0x92722c85];
      [0xa2bfe8a1; 0xa81a664b; 0xc24b8b70; 0xc76c51a3];
      [0xd192e819; 0xd6990624; 0xf40e3585; 0x106aa070];
      [0x19a4c116; 0x1e376c08; 0x2748774c; 0x34b0bcb5];
      [0x391c0cb3; 0x4ed8aa4a; 0x5b9cca4f; 0x682e6ff3];
      [0x748f82ee; 0x78a5636f; 0x84c87814; 0x8cc70208];
      [0x90befffa; 0xa4506ceb; 0xbef9a3f7; 0xc67178f2] ].

(** The chaining value: eight 32-bit words. *)
Record state := State
  { h0 : Z; h1 : Z; h2 : Z; h3 : Z; h4 : Z; h5 : Z; h6 : Z; h7 : Z }.

Definition init : state :=
  State 0x6a09e667 0xbb67ae85 0x3c6ef372 0xa54ff53a
        0x510e527f 0x9b05688c 0x1f83d9ab 0x5be0cd19.

(** Big-endian 32-bit words of a block. *)
Fixpoint words (p : list Z) : list Z :=
  match p with
  | a :: b :: c :: d :: r =>
      Z.lor (Z.lor (Z.shiftl a 24) (Z.shiftl b 16)) (Z.lor (Z.shiftl c 8) d)
      :: words r
  | _ => []
  end.

(** The message schedule, most recent word first: with [w[i-1]] at the
    head, [w[i-2]], [w[i-7]], [w[i-15]] and [w[i-16]] sit at positions
    1, 6, 14 and 15. *)
Fixpoint extend (n : nat) (w : list Z) : list Z :=
  match n with
  | O => w
  | S n' =>
      let v1 := nth 1 w 0 in
      let t1 := Z.lxor (Z.lxor (rotr v1 17) (rotr v1 19)) (Z.shiftr v1 10) in
      let v2 := nth 14 w 0 in
      let t2 := Z.lxor (Z.lxor (rotr v2 7) (rotr v2 18)) (Z.shiftr v2 3) in
      extend n' (add32 (add32 (add32 t1 (nth 6 w 0)) t2) (nth 15 w 0) :: w)
  end.

Definition schedule (p : list Z) : list Z := rev (extend 48 (rev (words p))).

Definition round (s : state) (kw : Z * Z) : state :=
  let '(State a b c d e f g h) := s in
  let t1 :=
    add32 (add32 (add32 (add32 h
      (Z.lxor (Z.lxor (rotr e 6) (rotr e 11)) (rotr e 25)))
      (Z.lxor (Z.land e f) (Z.land (not32 e) g)))
      (fst kw)) (snd kw) in
  let t2 :=
    add32 (Z.lxor (Z.lxor (rotr a 2) (rotr a 13)) (rotr a 22))
          (Z.lxor (Z.lxor (Z.land a b) (Z.land a c)) (Z.land b c)) in
  State (add32 t1 t2) a b c (add32 d t1) e f g.

(** One 64-byte block. *)
Definition block (s : state) (p : list Z) : state :=
  let r := fold_left round (combine _K (schedule p)) s in
  State (add32 (h0 s) (h0 r)) (add32 (h1 s) (h1 r))
        (add32 (h2 s) (h2 r)) (add32 (h3 s) (h3 r))
        (add32 (h4 s) (h4 r)) (add32 (h5 s) (h5 r))
        (add32 (h6 s) (h6 r)) (add32 (h7 s) (h7 r)).

Fixpoint blocks (n : nat) (s : state) (p : list Z) : state :=
  match n with
  | O => s
  | S n' => blocks n' (block s (firstn 64 p)) (skipn 64 p)
  end.

Definition be_bytes (k : nat) (x : Z) : list Z :=
  map (fun i => Z.land (Z.shiftr x (8 * Z.of_nat i)) 255) (rev (seq 0 k)).

(** Padding: [0x80], zeros up to 56 mod 64, then the bit length on
    eight bytes. *)
Definition pad (msg : list Z) : list Z :=
  let len := Z.of_nat (List.length msg) in
  let zeros := Z.to_nat ((55 - len) mod 64) in
  msg ++ 128 :: repeat 0 zeros ++ be_bytes 8 (Z.land (8 * len) (2 ^ 64 - 1)).

Definition be4 (x : Z) : list Z :=
  [ Z.land (Z.shiftr x 24) 255; Z.land (Z.shiftr x 16) 255;
    Z.land (Z.shiftr x 8) 255; Z.land x 255 ].

Definition digest (s : state) : list Z :=
  be4 (h0 s) ++ be4 (h1 s) ++ be4 (h2 s) ++ be4 (h3 s) ++
  be4 (h4 s) ++ be4 (h5 s) ++ be4 (h6 s) ++ be4 (h7 s).

(** [sha256.Sum256]: the 32 bytes of the digest. *)
Definition Sum256 (data : list Z) : list Z :=
  let p := pad data in
  digest (blocks (List.length p / 64) init p).

End sha256.

(** ** [fmt]: the [%x] verb on a byte array *)

Module fmt.

Definition ldigits : string := "0123456789abcdef".

Definition digit (n : Z) : ascii :=
  match String.get (Z.to_nat n) ldigits with
  | Some c => c
  | None => "?"%char
  end.

(** [%x] writes each byte as two lowercase digits, high nibble first. *)
Fixpoint hex (bs : list Z) : string :=
  match bs with
  | [] => ""
  | b :: r => String (digit (Z.shiftr b 4)) (String (digit (Z.land b 15)) (hex r))
  end.

End fmt.

(** ** Go's [error] values that reach the callers of this package, and
       the pair [(value, error)] returned by fallible functions *)

Inductive error :=
  | errorString (msg : string)              (* errors.New(msg) *)
  | EscapeError (s : string)                (* url.EscapeError *)
  | InvalidHostError (s : string)           (* url.InvalidHostError *)
  | url_Error (op u : string) (e : error)   (* *url.Error{Op, URL, Err} *)
  | ErrKeyNotFound                          (* badger.ErrKeyNotFound *)
  | ErrEmptyKey                             (* badger.ErrEmptyKey *)
  | ErrDBClosed                             (* badger.ErrDBClosed *)
  | ErrOpen (msg : string).                 (* any error of badger.Open *)

Inductive result (A : Type) :=
  | Ok (a : A)
  | Err (e : error).
Arguments Ok {A} a.
Arguments Err {A} e.

(** [v, err := f(); if err != nil { return err }] is the bind of this
    monad, written [v ← f; ...]. *)
#[global] Instance result_bind : MBind result := fun A B k r =>
  match r with
  | Ok a => k a
  | Err e => Err e
  end.

(** ** [net/url]: [Parse] and [URL.String] (Go 1.19 and later) *)

Module url.
Import Strings.

Inductive encoding :=
  | encodePath | encodePathSegment | encodeHost | encodeZone
  | encodeUserPassword | encodeQueryComponent | encodeFragment.

Record Userinfo := mkUserinfo
  { username : string; password : string; passwordSet : bool }.

Record URL := mkURL
  { Scheme : string;
    Opaque : string;
    User : option Userinfo;
    Host : string;
    Path : string;
    RawPath : string;
    OmitHost : bool;
    ForceQuery : bool;
    RawQuery : string;
    Fragment : string;
    RawFragment : string }.

(** [new(URL)]. *)
Definition zero : URL := mkURL "" "" None "" "" "" false false "" "" "".

Definition is_alpha (c : ascii) : bool := between "a" "z" c || between "A" "Z" c.
Definition is_digit (c : ascii) : bool := between "0" "9" c.
Definition one_of (set : string) (c : ascii) : bool := ContainsByte set c.

Definition ishex (c : ascii) : bool :=
  between "0" "9" c || between "a" "f" c || between "A" "F" c.

Definition unhex (c : ascii) : Z :=
  if between "0" "9" c then byte_of c - byte_of "0"
  else if between "a" "f" c then byte_of c - byte_of "a" + 10
  else if between "A" "F" c then byte_of c - byte_of "A" + 10
  else 0.

(** The byte 0x22, a double quote. *)
Definition dquote : ascii := ascii_of 34.

Definition is_host_mode (m : encoding) : bool :=
  match m with encodeHost | encodeZone => true | _ => false end.

Definition shouldEscape (c : ascii) (mode : encoding) : bool :=
  if is_alpha c || is_digit c then false
  else if is_host_mode mode && (one_of "!$&'()*+,;=:[]<>" c || eqb_byte c dquote)
  then false
  else if one_of "-_.~" c then false
  else if one_of "$&+,/:;=?@" c
            && match mode with
               | encodePath | encodePathSegment | encodeUserPassword
               | encodeQueryComponent | encodeFragment => true
               | _ => false
               end
  then match mode with
       | encodePath => eqb_byte c "?"
       | encodePathSegment => one_of "/;,?" c
       | encodeUserPassword => one_of "@/?:" c
       | encodeQueryComponent => true
       | _ => false
       end
  else if match mode with encodeFragment => one_of "!()*" c | _ => false end
  then false
  else true.

(** [unescape]: Go checks the whole string, then builds the result;
    one pass from the left reports the same first fault. *)
Fixpoint unescape (s : string) (mode : encoding) : result string :=
  match s with
  | EmptyString => Ok ""
  | String c r =>
      if eqb_byte c "%" then
        match r with
        | String a (String b r') =>
            if negb (ishex a && ishex b) then Err (EscapeError (take 3 s))
            else if match mode with encodeHost => true | _ => false end
                    && (unhex a <? 8) && negb (String.eqb (take 3 s) "%25")
            then Err (EscapeError (take 3 s))
            else
              let v := ascii_of (Z.lor (Z.shiftl (unhex a) 4) (unhex b)) in
              if match mode with encodeZone => true | _ => false end
                 && negb (String.eqb (take 3 s) "%25")
                 && negb (eqb_byte v " ") && shouldEscape v encodeHost
              then Err (EscapeError (take 3 s))
              else t ← unescape r' mode; Ok (String v t)
        | _ => Err (EscapeError (take 3 s))
        end
      else if is_host_mode mode && (byte_of c <? 128) && shouldEscape c encodeHost
      then Err (InvalidHostError (String c ""))
      else
        t ← unescape r mode;
        Ok (String (if eqb_byte c "+"
                       && match mode with encodeQueryComponent => true | _ => false end
                    then " "%char else c) t)
  end.

Definition upperhex : string := "0123456789ABCDEF".

Definition updigit (n : Z) : ascii :=
  match String.get (Z.to_nat n) upperhex with Some c => c | None => "?"%char end.

Fixpoint escape (s : string) (mode : encoding) : string :=
  match s with
  | EmptyString => ""
  | String c r =>
      if eqb_byte c " " && match mode with encodeQueryComponent => true | _ => false end
      then String "+" (escape r mode)
      else if shouldEscape c mode
      then String "%" (String (updigit (Z.shiftr (byte_of c) 4))
                      (String (updigit (Z.land (byte_of c) 15)) (escape r mode)))
      else String c (escape r mode)
  end.

(** [getScheme]: [i] is the loop index, [rest] is [rawURL[i:]]. *)
Fixpoint getScheme_from (i : nat) (rest rawURL : string) : result (string * string) :=
  match rest with
  | EmptyString => Ok ("", rawURL)
  | String c r =>
      if is_alpha c then getScheme_from (S i) r rawURL
      else if is_digit c || one_of "+-." c then
        match i with O => Ok ("", rawURL) | _ => getScheme_from (S i) r rawURL end
      else if eqb_byte c ":" then
        match i with
        | O => Err (errorString "missing protocol scheme")
        | _ => Ok (take i rawURL, r)
        end
      else Ok ("", rawURL)
  end.

Definition getScheme (rawURL : string) : result (string * string) :=
  getScheme_from 0 rawURL rawURL.

Definition stringContainsCTLByte (s : string) : bool :=
  exists_bytes (fun b => (byte_of b <? 32) || (byte_of b =? 127)) s.

Definition validOptionalPort (port : string) : bool :=
  match port with
  | EmptyString => true
  | String c r => eqb_byte c ":" && forall_bytes is_digit r
  end.

Definition validUserinfo (s : string) : bool :=
  forall_bytes (fun r => is_alpha r || is_digit r || one_of "-._:~!$&'()*+,;=%@" r) s.

Definition parseHost (host : string) : result string :=
  let plain :=
    match LastIndexByte host ":" with
    | Some i =>
        if negb (validOptionalPort (drop i host))
        then Err (errorString "invalid port after host")
        else unescape host encodeHost
    | None => unescape host encodeHost
    end in
  if HasPrefix host "[" then
    match LastIndexByte host "]" with
    | None => Err (errorString "missing ']' in host")
    | Some i =>
        if negb (validOptionalPort (drop (S i) host))
        then Err (errorString "invalid port after host")
        else
          match Index (take i host) "%25" with
          | Some zone =>
              host1 ← unescape (take zone host) encodeHost;
              host2 ← unescape (take (i - zone) (drop zone host)) encodeZone;
              host3 ← unescape (drop i host) encodeHost;
              Ok (host1 ++ host2 ++ host3)%string
          | None => unescape host encodeHost
          end
    end
  else plain.

Definition parseAuthority (authority : string) : result (option Userinfo * string) :=
  match LastIndexByte authority "@" with
  | None => host ← parseHost authority; Ok (None, host)
  | Some i =>
      host ← parseHost (drop (S i) authority);
      let userinfo := take i authority in
      if negb (validUserinfo userinfo)
      then Err (errorString "net/url: invalid userinfo")
      else if negb (ContainsByte userinfo ":") then
        name ← unescape userinfo encodeUserPassword;
        Ok (Some (mkUserinfo name "" false), host)
      else
        let '(name, pass, _) := Cut userinfo ":" in
        name ← unescape name encodeUserPassword;
        pass ← unescape pass encodeUserPassword;
        Ok (Some (mkUserinfo name pass true), host)
  end.

Definition setPath (u : URL) (p : string) : result URL :=
  path ← unescape p encodePath;
  Ok (mkURL (Scheme u) (Opaque u) (User u) (Host u) path
            (if String.eqb p (escape path encodePath) then "" else p)
            (OmitHost u) (ForceQuery u) (RawQuery u) (Fragment u) (RawFragment u)).

Definition setFragment (u : URL) (f : string) : result URL :=
  frag ← unescape f encodeFragment;
  Ok (mkURL (Scheme u) (Opaque u) (User u) (Host u) (Path u) (RawPath u)
            (OmitHost u) (ForceQuery u) (RawQuery u) frag
            (if String.eqb f (escape frag encodeFragment) then "" else f)).

Definition nonempty (s : string) : bool := negb (String.eqb s "").

Definition parse (rawURL : string) (viaRequest : bool) : result URL :=
  if stringContainsCTLByte rawURL
  then Err (errorString "net/url: invalid control character in URL")
  else if String.eqb rawURL "" && viaRequest then Err (errorString "empty url")
  else if String.eqb rawURL "*"
  then Ok (mkURL "" "" None "" "*" "" false false "" "" "")
  else
    '(scheme, rest) ← getScheme rawURL;
    let scheme := ToLower scheme in
    let '(rest, forceQuery, rawQuery) :=
      if HasSuffix rest "?" && (CountByte rest "?" =? 1)%nat
      then (take (String.length rest - 1) rest, true, "")
      else let '(before, after, _) := Cut rest "?" in (before, false, after) in
    let u0 := mkURL scheme "" None "" "" "" false forceQuery rawQuery "" "" in
    if negb (HasPrefix rest "/") && nonempty scheme
    then Ok (mkURL scheme rest None "" "" "" false forceQuery rawQuery "" "")
    else if negb (HasPrefix rest "/") && viaRequest
    then Err (errorString "invalid URI for request")
    else if negb (HasPrefix rest "/") && ContainsByte (fst (fst (Cut rest "/"))) ":"
    then Err (errorString "first path segment in URL cannot contain colon")
    else if (nonempty scheme || negb viaRequest && negb (HasPrefix rest "///"))
            && HasPrefix rest "//"
    then
      let authority := drop 2 rest in
      let '(authority, rest) :=
        match IndexByte authority "/" with
        | Some i => (take i authority, drop i authority)
        | None => (authority, "")
        end in
      '(user, host) ← parseAuthority authority;
      setPath (mkURL scheme "" user host "" "" false forceQuery rawQuery "" "") rest
    else if nonempty scheme && HasPrefix rest "/"
    then setPath (mkURL scheme "" None "" "" "" true forceQuery rawQuery "" "") rest
    else setPath u0 rest.

(** [url.Parse]. *)
Definition Parse (rawURL : string) : result URL :=
  let '(u, frag, _) := Cut rawURL "#" in
  match parse u false with
  | Err e => Err (url_Error "parse" u e)
  | Ok url =>
      if String.eqb frag "" then Ok url
      else match setFragment url frag with
           | Err e => Err (url_Error "parse" rawURL e)
           | Ok url => Ok url
           end
  end.

Definition validEncoded (s : string) (mode : encoding) : bool :=
  forall_bytes (fun c => one_of "!$&'()*+,;=:@[]%" c || negb (shouldEscape c mode)) s.

Definition EscapedPath (u : URL) : string :=
  if nonempty (RawPath u) && validEncoded (RawPath u) encodePath
     && match unescape (RawPath u) encodePath with
        | Ok p => String.eqb p (Path u)
        | Err _ => false
        end
  then RawPath u
  else if String.eqb (Path u) "*" then "*"
  else escape (Path u) encodePath.

Definition EscapedFragment (u : URL) : string :=
  if nonempty (RawFragment u) && validEncoded (RawFragment u) encodeFragment
     && match unescape (RawFragment u) encodeFragment with
        | Ok f => String.eqb f (Fragment u)
        | Err _ => false
        end
  then RawFragment u
  else escape (Fragment u) encodeFragment.

Definition Userinfo_String (ui : Userinfo) : string :=
  (escape (username ui) encodeUserPassword
   ++ (if passwordSet ui then ":" ++ escape (password ui) encodeUserPassword else ""))%string.

Definition is_some {A} (o : option A) : bool :=
  match o with Some _ => true | None => false end.

(** [URL.String]: the pieces are appended to [buf] in order. *)
Definition String (u : URL) : string :=
  let buf := if nonempty (Scheme u) then (Scheme u ++ ":")%string else "" in
  let buf :=
    if nonempty (Opaque u) then (buf ++ Opaque u)%string
    else
      let buf :=
        if nonempty (Scheme u) || nonempty (Host u) || is_some (User u) then
          if OmitHost u && negb (nonempty (Host u)) && negb (is_some (User u))
          then buf
          else
            let buf :=
              if nonempty (Host u) || nonempty (Path u) || is_some (User u)
              then (buf ++ "//")%string else buf in
            let buf :=
              match User u with
              | Some ui => (buf ++ Userinfo_String ui ++ "@")%string
              | None => buf
              end in
            if nonempty (Host u) then (buf ++ escape (Host u) encodeHost)%string
            else buf
        else buf in
      let path := EscapedPath u in
      let buf :=
        if nonempty path && negb (HasPrefix path "/") && nonempty (Host u)
        then (buf ++ "/")%string else buf in
      let buf :=
        if String.eqb buf "" && ContainsByte (fst (fst (Cut path "/"))) ":"
        then (buf ++ "./")%string else buf in
      (buf ++ path)%string in
  let buf :=
    if ForceQuery u || nonempty (RawQuery u)
    then (buf ++ "?" ++ RawQuery u)%string else buf in
  if nonempty (Fragment u) then (buf ++ "#" ++ EscapedFragment u)%string else buf.

(** [u.Scheme = s]. *)
Definition set_Scheme (s : string) (u : URL) : URL :=
  mkURL s (Opaque u) (User u) (Host u) (Path u) (RawPath u) (OmitHost u)
        (ForceQuery u) (RawQuery u) (Fragment u) (RawFragment u).

End url.

(** ** [path]: [Split] and [Clean] *)

Module path.
Import Strings.

(** [path.Split]: [path[:i+1], path[i+1:]] with [i] the last slash,
    [-1] when there is none. *)
Definition Split (p : string) : string * string :=
  match LastIndexByte p "/" with
  | Some i => (take (S i) p, drop (S i) p)
  | None => ("", p)
  end.

Definition at_ (p : string) (i : nat) : ascii :=
  match String.get i p with Some c => c | None => zero end.

(** The inner loop of the [..] case: [out.w--] until a slash or
    [dotdot] is reached. *)
Fixpoint backtrack (fuel : nat) (out : string) (w dotdot : nat) : nat :=
  match fuel with
  | O => w
  | S fuel' =>
      if (dotdot <? w)%nat && negb (eqb_byte (at_ out w) "/")
      then backtrack fuel' out (w - 1) dotdot
      else w
  end.

(** The inner loop of the default case: copy up to the next slash. *)
Fixpoint copy_segment (fuel : nat) (p : string) (r : nat) (out : string) : nat * string :=
  match fuel with
  | O => (r, out)
  | S fuel' =>
      if (r <? String.length p)%nat && negb (eqb_byte (at_ p r) "/")
      then copy_segment fuel' p (S r) (out ++ String (at_ p r) "")
      else (r, out)
  end.

(** The main loop of [Clean]; [out] is the written part of the buffer,
    so [out.w] is its length. *)
Fixpoint clean_loop (fuel : nat) (p : string) (rooted : bool)
    (r : nat) (out : string) (dotdot : nat) : string :=
  let n := String.length p in
  match fuel with
  | O => out
  | S fuel' =>
      if negb (r <? n)%nat then out
      else if eqb_byte (at_ p r) "/" then clean_loop fuel' p rooted (S r) out dotdot
      else if eqb_byte (at_ p r) "."
              && ((S r =? n)%nat || eqb_byte (at_ p (S r)) "/")
      then clean_loop fuel' p rooted (S r) out dotdot
      else if eqb_byte (at_ p r) "." && eqb_byte (at_ p (S r)) "."
              && ((S (S r) =? n)%nat || eqb_byte (at_ p (S (S r))) "/")
      then
        let w := String.length out in
        if (dotdot <? w)%nat then
          let w' := backtrack w out (w - 1) dotdot in
          clean_loop fuel' p rooted (S (S r)) (take w' out) dotdot
        else if negb rooted then
          let out := if (0 <? w)%nat then (out ++ "/")%string else out in
          let out := (out ++ "..")%string in
          clean_loop fuel' p rooted (S (S r)) out (String.length out)
        else clean_loop fuel' p rooted (S (S r)) out dotdot
      else
        let w := String.length out in
        let out :=
          if rooted && negb (w =? 1)%nat || negb rooted && negb (w =? 0)%nat
          then (out ++ "/")%string else out in
        let '(r', out) := copy_segment n p r out in
        clean_loop fuel' p rooted r' out dotdot
  end.

Definition Clean (p : string) : string :=
  if String.eqb p "" then "."
  else
    let rooted := eqb_byte (at_ p 0) "/" in
    let out :=
      if rooted then clean_loop (String.length p) p true 1 "/" 1
      else clean_loop (String.length p) p false 0 "" 0 in
    if String.eqb out "" then "." else out.

End path.

(** ** [time]: readings of the wall clock

    [Time.String], which is what [%s] prints for a [time.Time], depends
    on the zone and on the monotonic clock reading; it is left to the
    environment, as are [Time.Unix] and [Time.Add]. *)

Class Clock := {
  Time : Type;
  time_String : Time -> string;
  time_Unix : Time -> Z;
  time_Add : Time -> Z -> Time }.

(** ** badger: a transactional key-value store with expiring entries

    Faults of the disk underneath are outside the model: a transaction
    fails when the store is closed or the entry is refused. *)

Module badger.
Import Strings.

Record Entry := mkEntry
  { Key : string;
    Value : string;
    ExpiresAt : Z }.   (* uint64, seconds since the epoch; 0: never *)

Record DB := mkDB
  { closed : bool;
    items : gmap string Entry }.

Record Txn := mkTxn
  { update : bool;
    snapshot : gmap string Entry;
    pending : gmap string Entry }.

Definition maxKeySize : Z := 65000.
(** [DefaultOptions(path).ValueLogFileSize]. *)
Definition ValueLogFileSize : Z := 2 ^ 30 - 1.
Definition badgerPrefix : string := "!badger!".

Definition ErrReadOnlyTxn : error :=
  errorString "No sets or deletes are allowed in a read-only transaction".
Definition ErrInvalidKey : error := errorString "Key is using a reserved !badger! prefix".
Definition exceedsSize (what : string) : error :=
  errorString (what ++ " exceeds the size limit").

Definition len (s : string) : Z := Z.of_nat (String.length s).

Definition NewEntry (key value : string) : Entry := mkEntry key value 0.

(** [txn.SetEntry]: the checks of [txn.modify], then the entry joins
    the pending writes. *)
Definition SetEntry (txn : Txn) (e : Entry) : result Txn :=
  if negb (update txn) then Err ErrReadOnlyTxn
  else if len (Key e) =? 0 then Err ErrEmptyKey
  else if HasPrefix (Key e) badgerPrefix then Err ErrInvalidKey
  else if maxKeySize <? len (Key e) then Err (exceedsSize "Key")
  else if ValueLogFileSize <? len (Value e) then Err (exceedsSize "Value")
  else Ok (mkTxn (update txn) (snapshot txn) (<[Key e := e]> (pending txn))).

Definition Set_ (txn : Txn) (key value : string) : result Txn :=
  SetEntry txn (NewEntry key value).

(** [db.Update]: run [fn] in a read-write transaction and commit. *)
Definition Update (d : DB) (fn : Txn -> result Txn) : option error * DB :=
  if closed d then (Some ErrDBClosed, d)
  else match fn (mkTxn true (items d) ∅) with
       | Err e => (Some e, d)
       | Ok txn => (None, mkDB (closed d) (pending txn ∪ items d))
       end.

(** [db.View]: run [fn] in a read-only transaction. *)
Definition View {A} (d : DB) (fn : Txn -> result A) : result A :=
  if closed d then Err ErrDBClosed
  else fn (mkTxn false (items d) ∅).

Definition Close (d : DB) : DB := mkDB true (items d).

Section clock.
Context `{Clock}.

(** [e.WithTTL(dur)]: [ExpiresAt = uint64(time.Now().Add(dur).Unix())]. *)
Definition WithTTL (e : Entry) (dur : Z) (now : Time) : Entry :=
  mkEntry (Key e) (Value e) (time_Unix (time_Add now dur) mod 2 ^ 64).

Definition isExpired (e : Entry) (now : Time) : bool :=
  if ExpiresAt e =? 0 then false
  else ExpiresAt e <=? time_Unix now mod 2 ^ 64.

(** [txn.Get]: the latest visible version of [key]. *)
Definition Get (txn : Txn) (key : string) (now : Time) : result Entry :=
  if len key =? 0 then Err ErrEmptyKey
  else match (pending txn ∪ snapshot txn) !! key with
       | None => Err ErrKeyNotFound
       | Some e => if isExpired e now then Err ErrKeyNotFound else Ok e
       end.

(** [item.ValueCopy(nil)]. *)
Definition ValueCopy (item : Entry) : result string := Ok (Value item).

End clock.

End badger.

(** What [badger.Open] finds at a path is the environment's. *)
Class Storage := {
  badger_Open : string -> result badger.DB }.

(** ** [net/http]: the response writer and [Redirect] *)

Module http.
Import Strings.

Definition StatusOK : Z := 200.
Definition StatusMovedPermanently : Z := 301.
Definition StatusInternalServerError : Z := 500.

(** The fields of [*http.Request] that the handler reads:
    [r.Method] and [r.URL.Path]. *)
Record Request := mkRequest
  { Method : string;
    URL_Path : string }.

(** A response in the making: the header map, the status line and
    headers once [WriteHeader] has sent them, and the body. *)
Record ResponseWriter := mkResponse
  { Header : gmap string (list string);
    sent : option (Z * gmap string (list string));
    Body : string }.

Definition NewRecorder : ResponseWriter := mkResponse ∅ None "".

(** Only the first [WriteHeader] counts; it freezes the headers. *)
Definition WriteHeader (code : Z) (w : ResponseWriter) : ResponseWriter :=
  match sent w with
  | Some _ => w
  | None => mkResponse (Header w) (Some (code, Header w)) (Body w)
  end.

Definition Write (s : string) (w : ResponseWriter) : ResponseWriter :=
  let w := WriteHeader StatusOK w in
  mkResponse (Header w) (sent w) (Body w ++ s).

Definition Header_Set (k v : string) (w : ResponseWriter) : ResponseWriter :=
  mkResponse (<[k := [v]]> (Header w)) (sent w) (Body w).

Definition status (w : ResponseWriter) : option Z := fst <$> sent w.

(** The values of a header as sent to the client. *)
Definition sent_header (k : string) (w : ResponseWriter) : option (list string) :=
  match sent w with
  | Some (_, hs) => hs !! k
  | None => None
  end.

Definition newline : string := String (ascii_of 10) "".
Definition quote : string := String (ascii_of 34) "".

Fixpoint flat_map_bytes (f : ascii -> string) (s : string) : string :=
  match s with
  | EmptyString => ""
  | String c r => (f c ++ flat_map_bytes f r)%string
  end.

Definition htmlEscape (s : string) : string :=
  flat_map_bytes (fun c =>
    if eqb_byte c "&" then "&amp;"
    else if eqb_byte c "<" then "&lt;"
    else if eqb_byte c ">" then "&gt;"
    else if eqb_byte c (ascii_of 34) then "&#34;"
    else if eqb_byte c "'" then "&#39;"
    else String c "") s.

Definition hexEscapeNonASCII (s : string) : string :=
  flat_map_bytes (fun c =>
    if 128 <=? byte_of c
    then String "%" (String (fmt.digit (Z.shiftr (byte_of c) 4))
                    (String (fmt.digit (Z.land (byte_of c) 15)) ""))
    else String c "") s.

(** [http.StatusText] on the codes above. *)
Definition StatusText (code : Z) : string :=
  if code =? 200 then "OK"
  else if code =? 301 then "Moved Permanently"
  else if code =? 500 then "Internal Server Error"
  else "".

(** A target without scheme and host is made absolute against the
    request path and cleaned. *)
Definition absolute (r : Request) (u : string) : string :=
  match url.Parse u with
  | Err _ => u
  | Ok p =>
      if String.eqb (url.Scheme p) "" && String.eqb (url.Host p) "" then
        let oldpath := if String.eqb (URL_Path r) "" then "/" else URL_Path r in
        let u := if negb (HasPrefix u "/") then (fst (path.Split oldpath) ++ u)%string
                 else u in
        let '(u, query) :=
          match IndexByte u "?" with
          | Some i => (take i u, drop i u)
          | None => (u, "")
          end in
        let trailing := HasSuffix u "/" in
        let u := path.Clean u in
        let u := if trailing && negb (HasSuffix u "/") then (u ++ "/")%string else u in
        (u ++ query)%string
      else u
  end.

Definition Redirect (w : ResponseWriter) (r : Request) (u : string) (code : Z)
    : ResponseWriter :=
  let u := absolute r u in
  let hadCT := url.is_some (Header w !! "Content-Type") in
  let w := Header_Set "Location" (hexEscapeNonASCII u) w in
  let w :=
    if negb hadCT && (String.eqb (Method r) "GET" || String.eqb (Method r) "HEAD")
    then Header_Set "Content-Type" "text/html; charset=utf-8" w else w in
  let w := WriteHeader code w in
  if negb hadCT && String.eqb (Method r) "GET"
  then Write ("<a href=" ++ quote ++ htmlEscape u ++ quote ++ ">"
              ++ StatusText code ++ "</a>." ++ newline ++ newline) w
  else w.

End http.

(** A Go call either returns or panics. *)
Inductive outcome (A : Type) :=
  | Ret (a : A)
  | Panic (msg : string).
Arguments Ret {A} a.
Arguments Panic {A} msg.

(** * Package [coopurl] *)

Module coopurl.
Section coopurl.
Context `{Clock} `{Storage}.

Definition DefaultDbPath : string := "/tmp/badger".
Definition DefaultLength : Z := 8.

(** [Handler].  The mutex [mu] guards [open] against concurrent calls
    and the logger only writes to its own sink; neither is modelled.
    [db] is a pointer: [None] is [nil]. *)
Record Handler := mkHandler
  { db : option badger.DB;
    path : string;
    TTL : Z;
    Length : Z;
    Scheme : string }.

Record req := mkReq
  { ttl : Z;
    length : Z }.

Definition Options : Type := Handler -> Handler.
Definition ReqOptions : Type := req -> req.

Definition WithDbPath (p : string) : Options := fun h =>
  mkHandler (db h) p (TTL h) (Length h) (Scheme h).

Definition WithDefaultTTL (t : Z) : Options := fun h =>
  mkHandler (db h) (path h) t (Length h) (Scheme h).

Definition WithDefaultLength (n : Z) : Options := fun h =>
  mkHandler (db h) (path h) (TTL h) n (Scheme h).

Definition WithTTL (t : Z) : ReqOptions := fun r => mkReq t (length r).

Definition WithLength (n : Z) : ReqOptions := fun r => mkReq (ttl r) n.

Definition set_db (d : option badger.DB) (h : Handler) : Handler :=
  mkHandler d (path h) (TTL h) (Length h) (Scheme h).

Definition getPath (h : Handler) : string :=
  if String.eqb (path h) "" then DefaultDbPath else path h.

Definition getLength (h : Handler) (r : req) : Z :=
  if 0 <? length r then length r
  else if 0 <? Length h then Length h
  else DefaultLength.

(** [open]: [h.db, err = badger.Open(opt)]. *)
Definition open (h : Handler) : option error * Handler :=
  match badger_Open (getPath h) with
  | Ok d => (None, set_db (Some d) h)
  | Err e => (Some e, set_db None h)
  end.

Definition init (h : Handler) : option error * Handler :=
  match db h with
  | None => open h
  | Some _ => (None, h)
  end.

(** [New]: apply the options to the zero handler, then open. *)
Definition New (opts : list Options) : result Handler :=
  let h := fold_left (fun h opt => opt h) opts (mkHandler None "" 0 0 "") in
  match open h with
  | (Some e, _) => Err e
  | (None, h) => Ok h
  end.

Definition Close (h : Handler) : outcome Handler :=
  match db h with
  | None => Panic "invalid memory address or nil pointer dereference"
  | Some d => Ret (set_db (Some (badger.Close d)) h)
  end.

(** [s[:n]]: panics unless [0 <= n <= len(s)]. *)
Definition slice_to (s : string) (n : Z) : outcome string :=
  if (n <? 0) || (Z.of_nat (String.length s) <? n)
  then Panic "slice bounds out of range"
  else Ret (Strings.take (Z.to_nat n) s).

(** [generateId]; [now] is the reading of [time.Now()]. *)
Definition generateId (u : string) (n : Z) (now : Time) : outcome string :=
  let s := (u ++ "-" ++ time_String now)%string in
  let sha := fmt.hex (sha256.Sum256 (Strings.bytes s)) in
  if Z.of_nat (String.length sha) <=? n then Ret sha
  else slice_to sha n.

(** [get]. *)
Definition get (h : Handler) (id : string) (now : Time) : outcome (result string) :=
  match db h with
  | None => Panic "invalid memory address or nil pointer dereference"
  | Some d =>
      Ret (badger.View d (fun txn =>
             item ← badger.Get txn id now;
             b ← badger.ValueCopy item;
             Ok b))
  end.

(** [Get]. *)
Definition Get (h : Handler) (id : string) (now : Time)
    : outcome (result string) * Handler :=
  match init h with
  | (Some err, h) => (Ret (Err err), h)
  | (None, h) => (get h id now, h)
  end.

(** [post]; [tgen] is the clock reading taken by [generateId] and
    [tset] the one taken by [WithTTL]. *)
Definition post (h : Handler) (s : string) (opts : list ReqOptions)
    (tgen tset : Time) : outcome (result string) * Handler :=
  match url.Parse s with
  | Err err => (Ret (Err err), h)
  | Ok u =>
      let u := if String.eqb (url.Scheme u) "" then url.set_Scheme "http" u else u in
      let r := fold_left (fun r opt => opt r) opts (mkReq 0 0) in
      match generateId (url.String u) (getLength h r) tgen with
      | Panic m => (Panic m, h)
      | Ret id =>
          let ttl := if ttl r =? 0 then TTL h else ttl r in
          match db h with
          | None => (Panic "invalid memory address or nil pointer dereference", h)
          | Some d =>
              let '(err, d) :=
                badger.Update d (fun txn =>
                  if negb (ttl =? 0)
                  then badger.SetEntry txn
                         (badger.WithTTL (badger.NewEntry id (url.String u)) ttl tset)
                  else badger.Set_ txn id (url.String u)) in
              match err with
              | Some err => (Ret (Err err), set_db (Some d) h)
              | None => (Ret (Ok id), set_db (Some d) h)
              end
          end
      end
  end.

(** [Post]: the request options are not handed to [post]. *)
Definition Post (h : Handler) (u : string) (opts : list ReqOptions)
    (tgen tset : Time) : outcome (result string) * Handler :=
  match init h with
  | (Some err, h) => (Ret (Err err), h)
  | (None, h) => post h u [] tgen tset
  end.

(** [redirect]. *)
Definition redirect (w : http.ResponseWriter) (r : http.Request) (s : string)
    : option error * http.ResponseWriter :=
  match url.Parse s with
  | Err err => (Some err, w)
  | Ok u => (None, http.Redirect w r (url.String u) http.StatusMovedPermanently)
  end.

(** [ServeHTTP]. *)
Definition ServeHTTP (h : Handler) (w : http.ResponseWriter) (r : http.Request)
    (now : Time) : outcome http.ResponseWriter * Handler :=
  let '(err, h) := init h in
  let w := match err with
           | Some _ => http.WriteHeader http.StatusInternalServerError w
           | None => w
           end in
  let '(_, id) := path.Split (http.URL_Path r) in
  match Get h id now with
  | (Panic m, h) => (Panic m, h)
  | (Ret (Err _), h) => (Ret (http.WriteHeader http.StatusInternalServerError w), h)
  | (Ret (Ok u), h) =>
      match redirect w r u with
      | (Some _, w) => (Ret (http.WriteHeader http.StatusInternalServerError w), h)
      | (None, w) => (Ret w, h)
      end
  end.

(** A client's calls, each with the clock readings it meets. *)
Inductive call :=
  | Call_Post (u : string) (opts : list ReqOptions) (tgen tset : Time)
  | Call_Get (id : string) (now : Time).

Definition step (h : Handler) (c : call) : outcome (result string) * Handler :=
  match c with
  | Call_Post u opts tgen tset => Post h u opts tgen tset
  | Call_Get id now => Get h id now
  end.

(** The results of a sequence of calls and the handler they leave. *)
Fixpoint run (h : Handler) (cs : list call)
    : list (outcome (result string)) * Handler :=
  match cs with
  | [] => ([], h)
  | c :: cs =>
      let '(o, h) := step h c in
      let '(os, h) := run h cs in
      (o :: os, h)
  end.

End coopurl.
End coopurl.

(** * Package [main]: the handler of the submission form

    [ServeShort] of the demonstration server.  What the environment
    decides is again a parameter: the template files on disk and what
    they render ([Templates]).  Of the request the handler reads the
    host and the form; [ParseForm] is the error of [r.ParseForm()], if
    any, and [Form] the form it left. *)

Module main.

Record ShortData := mkShortData
  { ShortURL : string;
    PrevURL : string;
    PrevURLLink : string }.

(** [template.ParseFiles] returns the templates of the files or an
    error; a template set, executed by name on the data, writes its
    output. *)
Class Templates := {
  ParseFiles : list string -> result (string -> ShortData -> string) }.

Record Request := mkRequest
  { Host : string;
    ParseForm : option error;
    Form : gmap string (list string) }.

Definition StatusBadRequest : Z := 400.

(** [strings.TrimLeft(s, cutset)], on bytes. *)
Fixpoint TrimLeft (s cutset : string) : string :=
  match s with
  | EmptyString => ""
  | String c r => if Strings.ContainsByte cutset c then TrimLeft r cutset else s
  end.

(** The output of a template goes to the response as it is produced;
    none is written when there is none. *)
Definition execute (out : string) (w : http.ResponseWriter) : http.ResponseWriter :=
  if String.eqb out "" then w else http.Write out w.

Section handlers.
Context `{Clock} `{Storage} `{Templates}.

(** The closure that [ServeShort(h)] returns; [tgen] and [tset] are
    the clock readings that [Post] meets. *)
Definition ServeShort (h : coopurl.Handler) (w : http.ResponseWriter) (r : Request)
    (tgen tset : Time) : outcome http.ResponseWriter * coopurl.Handler :=
  match ParseForm r with
  | Some _ => (Ret (http.WriteHeader http.StatusInternalServerError w), h)
  | None =>
      match Form r !! "u" with
      | None | Some [] => (Ret (http.WriteHeader StatusBadRequest w), h)
      | Some (u :: _) =>
          match coopurl.Post h u [] tgen tset with
          | (Panic m, h) => (Panic m, h)
          | (Ret (Err _), h) =>
              (Ret (http.WriteHeader http.StatusInternalServerError w), h)
          | (Ret (Ok id), h) =>
              match url.Parse u with
              | Err _ => (Ret (http.WriteHeader http.StatusInternalServerError w), h)
              | Ok ur =>
                  let ur := if String.eqb (url.Scheme ur) ""
                            then url.set_Scheme "http" ur else ur in
                  let surl := url.mkURL "" "" None (Host r) ("r/" ++ id) ""
                                false false "" "" "" in
                  let data := mkShortData (TrimLeft (url.String surl) "/") u
                                (url.String ur) in
                  match ParseFiles ["templates/layout.html"; "templates/short.html"] with
                  | Err _ => (Panic "template: ParseFiles failed", h)
                  | Ok tmpl => (Ret (execute (tmpl "layout" data) w), h)
                  end
              end
          end
      end
  end.

End handlers.
End main.

(** * The vocabulary of the properties *)

Section vocabulary.
Context `{Clock} `{Storage}.

Definition is_byte (b : Z) : Prop := 0 <= b < 256.

Definition is_lower_hex (c : ascii) : bool :=
  Strings.between "0" "9" c || Strings.between "a" "f" c.

(** What [%x] prints for a [Sum256] digest. *)
Definition hexdigest (s : string) : string :=
  fmt.hex (sha256.Sum256 (Strings.bytes s)).

(** Lines 207-210 of [post]: a missing scheme becomes [http]. *)
Definition normalized (u : url.URL) : url.URL :=
  if String.eqb (url.Scheme u) "" then url.set_Scheme "http" u else u.

(** The [req] that [post] builds from its options. *)
Definition request (opts : list coopurl.ReqOptions) : coopurl.req :=
  fold_left (fun r opt => opt r) opts (coopurl.mkReq 0 0).

(** The TTL that [post] resolves: the request's, else the handler's. *)
Definition effective_ttl (h : coopurl.Handler) (r : coopurl.req) : Z :=
  if coopurl.ttl r =? 0 then coopurl.TTL h else coopurl.ttl r.

(** The entry that the transaction of [post] writes. *)
Definition written (id v : string) (ttl : Z) (tset : Time) : badger.Entry :=
  if negb (ttl =? 0) then badger.WithTTL (badger.NewEntry id v) ttl tset
  else badger.NewEntry id v.

(** The text that [generateId] hashes. *)
Definition seed (u : string) (t : Time) : string := u ++ "-" ++ time_String t.

(** The first [n] characters of [s], all of [s] when it is shorter. *)
Fixpoint first_chars (n : nat) (s : string) : string :=
  match n, s with
  | S n', String c r => String c (first_chars n' r)
  | _, _ => ""
  end.

(** The identifier as the specification words it: hash the URL, a
    dash and the printed time, print the digest in hexadecimal, keep
    the first [n] characters, or all of them from 64 on. *)
Definition spec_generateId (u : string) (t : Time) (n : Z) : string :=
  let digest := fmt.hex (sha256.Sum256 (Strings.bytes (u ++ "-" ++ time_String t))) in
  if 64 <=? n then digest else first_chars (Z.to_nat n) digest.

(** What [url.Parse] makes of [http://example.com]. *)
Definition example_com : url.URL :=
  url.mkURL "http" "" None "example.com" "" "" false false "" "" "".

(** [h.Scheme = sch]. *)
Definition with_Scheme (sch : string) (h : coopurl.Handler) : coopurl.Handler :=
  coopurl.mkHandler (coopurl.db h) (coopurl.path h) (coopurl.TTL h)
    (coopurl.Length h) sch.

(** A result computed on [h], carried over to [h] with another scheme. *)
Definition carry {A} (sch : string) (r : A * coopurl.Handler) : A * coopurl.Handler :=
  (fst r, with_Scheme sch (snd r)).

(** C3 as worded: [Get(Post(s))] is [s] itself when [s] has a scheme,
    and [s] behind [http://] when it has none. *)
Definition Get_Post_returns_input : Prop :=
  forall h s opts tgen tset tget id h1 u,
    coopurl.Post h s opts tgen tset = (Ret (Ok id), h1) ->
    coopurl.TTL h = 0 ->
    url.Parse s = Ok u ->
    fst (coopurl.Get h1 id tget)
    = Ret (Ok (if String.eqb (url.Scheme u) "" then "http://" ++ s else s)).

(** C6 as worded: [Get] of any id that is not a key of the store fails
    with the not-found error. *)
Definition Get_missing_is_not_found : Prop :=
  forall h d id now,
    coopurl.db h = Some d -> badger.closed d = false ->
    badger.items d !! id = None ->
    coopurl.Get h id now = (Ret (Err ErrKeyNotFound), h).

(** A key and entry as [Post] writes them: the key is an id, one to 64
    lowercase hexadecimal characters, and the value begins with a
    scheme and a colon. *)
Definition posted_entry (k : string) (e : badger.Entry) : Prop :=
  (0 < String.length k <= 64)%nat
  /\ Strings.forall_bytes is_lower_hex k = true
  /\ badger.Key e = k
  /\ exists scheme rest,
       scheme <> "" /\ badger.Value e = (scheme ++ ":" ++ rest)%string.

(** The bytes that [getScheme] lets through after the first, and the
    strings it returns as a scheme: a letter, then such bytes. *)
Definition scheme_byte (c : ascii) : bool :=
  url.is_alpha c || url.is_digit c || url.one_of "+-." c.

Definition valid_scheme (s : string) : bool :=
  match s with
  | EmptyString => false
  | String c r => url.is_alpha c && Strings.forall_bytes scheme_byte r
  end.

End vocabulary.

(** ** A concrete environment, for running the code on examples *)

Module Example.

Fixpoint digits (fuel : nat) (n : Z) (acc : string) : string :=
  match fuel with
  | O => acc
  | S fuel' =>
      let acc := String (fmt.digit (n mod 10)) acc in
      if n <? 10 then acc else digits fuel' (n / 10) acc
  end.

(** Readings of the clock are seconds since the epoch, printed in
    decimal. *)
#[export] Instance clock : Clock :=
  {| Time := Z;
     time_String t := digits 20 (Z.abs t) "";
     time_Unix t := t;
     time_Add t d := t + d / 1000000000 |}.

(** Every path holds an empty store. *)
#[export] Instance storage : Storage :=
  {| badger_Open _ := Ok (badger.mkDB false ∅) |}.

End Example.

(** Template files that render the short URL and the link it stands
    for. *)
#[export] Instance example_pages : main.Templates :=
  {| main.ParseFiles _ :=
       Ok (fun _ data => main.ShortURL data ++ " -> " ++ main.PrevURLLink data) |}.

(** The handler that [New()] returns: an open, empty store and no
    defaults. *)
Definition fresh : coopurl.Handler :=
  coopurl.mkHandler (Some (badger.mkDB false ∅)) "" 0 0 "".

(** Two readings of the example clock, a minute apart. *)
Definition t0 : @Time Example.clock := 1600000000.
Definition t1 : @Time Example.clock := 1600000060.

(** The store and the handler after [Post("example.com")] at [t0]. *)
Definition one_link : badger.DB :=
  badger.mkDB false
    (<["c43d99a9" := badger.mkEntry "c43d99a9" "http://example.com" 0]> ∅).

Definition posted : coopurl.Handler :=
  coopurl.mkHandler (Some one_link) "" 0 0 "".

(** What [url.Parse] makes of [example.com]: a path, no scheme. *)
Definition bare_example_com : url.URL :=
  url.mkURL "" "" None "" "example.com" "" false false "" "" "".

(** A disk on which no store opens. *)
Definition broken_disk : Storage :=
  {| badger_Open _ := Err (ErrOpen "Cannot acquire directory lock") |}.

(** The zero handler: no store yet. *)
Definition unopened : coopurl.Handler := coopurl.mkHandler None "" 0 0 "".

(** A handler with defaults: ids of 12 characters, links that live one
    second. *)
Definition short_lived : coopurl.Handler :=
  coopurl.WithDefaultLength 12 (coopurl.WithDefaultTTL 1000000000 fresh).

(** A submission of [example.com] to the host [short.example], and an
    empty submission. *)
Definition submission : main.Request :=
  main.mkRequest "short.example" None {["u" := ["example.com"]]}.

Definition empty_submission : main.Request :=
  main.mkRequest "short.example" None ∅.

(** A server started outside its directory: no template file is found. *)
Definition no_pages : main.Templates :=
  {| main.ParseFiles _ :=
       Err (errorString "open templates/layout.html: no such file or directory") |}.

(** The template set of [example_pages]. *)
Definition example_page : string -> main.ShortData -> string :=
  fun _ data => main.ShortURL data ++ " -> " ++ main.PrevURLLink data.

(** * Properties *)

(** A closed equation that both sides compute to. *)
Ltac computed := vm_compute; reflexivity.

(** ** The digest and its rendering *)

Section digest_facts.

(** Known digests: the empty string and the two messages of the
    standard's examples. *)
Example sha_abc :
  fmt.hex (sha256.Sum256 (Strings.bytes "abc"))
  = "ba7816bf8f01cfea414140de5dae2223b00361a396177a9cb410ff61f20015ad".
Proof. computed. Qed.

Example sha_empty :
  fmt.hex (sha256.Sum256 (Strings.bytes ""))
  = "e3b0c44298fc1c149afbf4c8996fb92427ae41e4649b934ca495991b7852b855".
Proof. computed. Qed.

Example sha_two_blocks :
  fmt.hex (sha256.Sum256 (Strings.bytes
    "abcdbcdecdefdefgefghfghighijhijkijkljklmklmnlmnomnopnopq"))
  = "248d6a61d20638b8e5c026930c3e6039a33ce45964ff2167f6ecedd419db06c1".
Proof. computed. Qed.

Lemma land_255_byte x : is_byte (Z.land x 255).
Proof.
  unfold is_byte. change 255 with (Z.ones 8).
  rewrite Z.land_ones by lia. apply Z.mod_pos_bound. lia.
Qed.

Lemma Sum256_length data : List.length (sha256.Sum256 data) = 32%nat.
Proof.
  unfold sha256.Sum256. generalize (sha256.pad data). intros p.
  generalize (sha256.blocks (List.length p / 64) sha256.init p).
  intros s. reflexivity.
Qed.

Lemma Sum256_bytes data : Forall is_byte (sha256.Sum256 data).
Proof.
  unfold sha256.Sum256. generalize (sha256.pad data). intros p.
  generalize (sha256.blocks (List.length p / 64) sha256.init p).
  intros s. unfold sha256.digest, sha256.be4. simpl.
  repeat (constructor; [apply land_255_byte |]). constructor.
Qed.

Lemma digit_lower_hex n : 0 <= n < 16 -> is_lower_hex (fmt.digit n) = true.
Proof.
  intros Hn.
  assert (Hc : exists k, n = Z.of_nat k /\ (k < 16)%nat).
  { exists (Z.to_nat n). lia. }
  destruct Hc as (k & -> & Hk). unfold fmt.digit. rewrite Nat2Z.id.
  do 16 (destruct k as [|k]; [reflexivity |]). lia.
Qed.

Lemma high_nibble b : is_byte b -> 0 <= Z.shiftr b 4 < 16.
Proof.
  unfold is_byte. intros Hb. rewrite Z.shiftr_div_pow2 by lia.
  change (2 ^ 4) with 16. split.
  - apply Z.div_pos; lia.
  - apply Z.div_lt_upper_bound; lia.
Qed.

Lemma low_nibble b : 0 <= Z.land b 15 < 16.
Proof.
  change 15 with (Z.ones 4). rewrite Z.land_ones by lia.
  apply Z.mod_pos_bound. lia.
Qed.

Lemma hex_length bs : String.length (fmt.hex bs) = (2 * List.length bs)%nat.
Proof. induction bs as [|b bs IH]; simpl; [reflexivity | rewrite IH; lia]. Qed.

Lemma hex_lower bs :
  Forall is_byte bs -> Strings.forall_bytes is_lower_hex (fmt.hex bs) = true.
Proof.
  induction 1 as [|b bs Hb _ IH]; simpl; [reflexivity |].
  rewrite (digit_lower_hex _ (high_nibble b Hb)).
  rewrite (digit_lower_hex _ (low_nibble b)). exact IH.
Qed.

Lemma hexdigest_length s : String.length (hexdigest s) = 64%nat.
Proof. unfold hexdigest. rewrite hex_length, Sum256_length. reflexivity. Qed.

Lemma hexdigest_lower s : Strings.forall_bytes is_lower_hex (hexdigest s) = true.
Proof. apply hex_lower, Sum256_bytes. Qed.

Lemma take_length n s :
  String.length (Strings.take n s) = Nat.min n (String.length s).
Proof.
  unfold Strings.take. revert s.
  induction n as [|n IH]; intros [|c s]; simpl; try reflexivity.
  rewrite IH. reflexivity.
Qed.

Lemma take_forall p n s :
  Strings.forall_bytes p s = true -> Strings.forall_bytes p (Strings.take n s) = true.
Proof.
  unfold Strings.take. revert s.
  induction n as [|n IH]; intros [|c s]; simpl; try reflexivity.
  intros [Hc Hs]%andb_prop. rewrite Hc. simpl. apply IH, Hs.
Qed.

End digest_facts.

(** ** The store *)

Section badger_facts.
Context `{Clock}.

Lemma SetEntry_Ok txn e txn' :
  badger.SetEntry txn e = Ok txn' ->
  txn' = badger.mkTxn (badger.update txn) (badger.snapshot txn)
           (<[badger.Key e := e]> (badger.pending txn)).
Proof.
  unfold badger.SetEntry.
  repeat match goal with |- context [if ?b then _ else _] => destruct b end;
    congruence.
Qed.

Lemma prefix_head_ne a b s1 s2 :
  a <> b -> String.prefix (String a s1) (String b s2) = false.
Proof. intros Hne. simpl. destruct (ascii_dec a b); congruence. Qed.

Lemma lower_hex_not_reserved id :
  Strings.forall_bytes is_lower_hex id = true ->
  Strings.HasPrefix id badger.badgerPrefix = false.
Proof.
  destruct id as [|c r]; [reflexivity |].
  intros [Hc _]%andb_prop. apply prefix_head_ne.
  intros <-. discriminate Hc.
Qed.

(** A short hexadecimal key and a value within the value-log limit
    pass the checks of a read-write transaction. *)
Lemma SetEntry_accepts snap pend e :
  (0 < String.length (badger.Key e) <= 64)%nat ->
  Strings.forall_bytes is_lower_hex (badger.Key e) = true ->
  badger.len (badger.Value e) <= badger.ValueLogFileSize ->
  badger.SetEntry (badger.mkTxn true snap pend) e
  = Ok (badger.mkTxn true snap (<[badger.Key e := e]> pend)).
Proof.
  intros Hlen Hhex Hval. unfold badger.SetEntry. simpl.
  replace (badger.len (badger.Key e) =? 0) with false
    by (unfold badger.len; lia).
  rewrite (lower_hex_not_reserved _ Hhex).
  replace (badger.maxKeySize <? badger.len (badger.Key e)) with false
    by (unfold badger.len, badger.maxKeySize; lia).
  replace (badger.ValueLogFileSize <? badger.len (badger.Value e)) with false
    by lia.
  reflexivity.
Qed.

Lemma lookup_committed (k : string) (e : badger.Entry) (m : gmap string badger.Entry) :
  (<[k := e]> ∅ ∪ m) !! k = Some e.
Proof. apply lookup_union_Some_l, lookup_insert_eq. Qed.

(** A read-only transaction sees exactly the items of the store. *)
Lemma View_Get d id now :
  badger.closed d = false ->
  badger.View d (fun txn =>
    item ← badger.Get txn id now; b ← badger.ValueCopy item; Ok b)
  = if badger.len id =? 0 then Err ErrEmptyKey
    else match badger.items d !! id with
         | None => Err ErrKeyNotFound
         | Some e =>
             if badger.isExpired e now then Err ErrKeyNotFound
             else Ok (badger.Value e)
         end.
Proof.
  intros Hopen. unfold badger.View, badger.Get. rewrite Hopen. simpl.
  destruct (badger.len id =? 0); [reflexivity |].
  rewrite (left_id_L ∅ (∪)).
  destruct (badger.items d !! id) as [e|]; [| reflexivity].
  destruct (badger.isExpired e now); reflexivity.
Qed.

End badger_facts.

(** ** [getLength], [generateId], [post] and [get] *)

Section coopurl_facts.
Context `{Clock} `{Storage}.

Lemma written_Key id v ttl tset : badger.Key (written id v ttl tset) = id.
Proof. unfold written. destruct (negb (ttl =? 0)); reflexivity. Qed.

Lemma written_Value id v ttl tset : badger.Value (written id v ttl tset) = v.
Proof. unfold written. destruct (negb (ttl =? 0)); reflexivity. Qed.

Lemma getLength_pos h r : 0 < coopurl.getLength h r.
Proof.
  unfold coopurl.getLength, coopurl.DefaultLength.
  destruct (0 <? coopurl.length r) eqn:Hr; [lia |].
  destruct (0 <? coopurl.Length h) eqn:Hh; lia.
Qed.

Lemma getLength_request h r :
  0 < coopurl.length r -> coopurl.getLength h r = coopurl.length r.
Proof.
  intros Hr. unfold coopurl.getLength.
  destruct (0 <? coopurl.length r) eqn:E; [reflexivity | lia].
Qed.

(** [generateId] returns whenever [0 <= n]: the digest, or its first
    [n] characters. *)
Lemma generateId_ok u n t :
  0 <= n ->
  coopurl.generateId u n t
  = Ret (if 64 <=? n then hexdigest (seed u t)
         else Strings.take (Z.to_nat n) (hexdigest (seed u t))).
Proof.
  intros Hn. unfold coopurl.generateId. fold (seed u t).
  fold (hexdigest (seed u t)). rewrite hexdigest_length.
  change (Z.of_nat 64) with 64.
  destruct (64 <=? n) eqn:E; [reflexivity |].
  unfold coopurl.slice_to. rewrite hexdigest_length.
  change (Z.of_nat 64) with 64.
  replace ((n <? 0) || (64 <? n)) with false by lia. reflexivity.
Qed.

(** For a positive [n] the id has [min n 64] lowercase hexadecimal
    characters. *)
Lemma generateId_id u n t :
  0 < n ->
  exists id, coopurl.generateId u n t = Ret id
    /\ String.length id = Z.to_nat (Z.min n 64)
    /\ Strings.forall_bytes is_lower_hex id = true.
Proof.
  intros Hn. rewrite generateId_ok by lia.
  eexists. split; [reflexivity |].
  destruct (64 <=? n) eqn:E.
  - rewrite hexdigest_length, hexdigest_lower. split; [lia | reflexivity].
  - rewrite take_length, hexdigest_length. split; [lia |].
    apply take_forall, hexdigest_lower.
Qed.

Lemma write_as_SetEntry txn id v ttl tset :
  (if negb (ttl =? 0)
   then badger.SetEntry txn (badger.WithTTL (badger.NewEntry id v) ttl tset)
   else badger.Set_ txn id v)
  = badger.SetEntry txn (written id v ttl tset).
Proof. unfold written, badger.Set_. destruct (negb (ttl =? 0)); reflexivity. Qed.

(** What a successful [post] did. *)
Lemma post_inv h s opts tgen tset id h' :
  coopurl.post h s opts tgen tset = (Ret (Ok id), h') ->
  exists u d,
    url.Parse s = Ok u /\ coopurl.db h = Some d /\ badger.closed d = false
    /\ coopurl.generateId (url.String (normalized u))
         (coopurl.getLength h (request opts)) tgen = Ret id
    /\ h' = coopurl.set_db (Some (badger.mkDB false
              (<[id := written id (url.String (normalized u))
                         (effective_ttl h (request opts)) tset]> ∅
               ∪ badger.items d))) h.
Proof.
  unfold coopurl.post. fold (request opts).
  destruct (url.Parse s) as [u|e]; [| discriminate].
  fold (normalized u). fold (effective_ttl h (request opts)).
  destruct (coopurl.generateId _ _ tgen) as [id0|m] eqn:Hgen; [| discriminate].
  destruct (coopurl.db h) as [d|]; [| discriminate].
  unfold badger.Update. destruct (badger.closed d) eqn:Hc; [discriminate |].
  rewrite write_as_SetEntry.
  destruct (badger.SetEntry _ _) as [txn|e] eqn:Hset; [| discriminate].
  apply SetEntry_Ok in Hset. subst txn. simpl.
  rewrite written_Key. intros [= <- <-].
  exists u, d. repeat split; try reflexivity; assumption.
Qed.

(** [post] succeeds on an open store when the URL parses and its
    rendering fits in the value log. *)
Lemma post_ok h d s opts tgen tset u :
  coopurl.db h = Some d -> badger.closed d = false ->
  url.Parse s = Ok u ->
  badger.len (url.String (normalized u)) <= badger.ValueLogFileSize ->
  exists id,
    coopurl.generateId (url.String (normalized u))
      (coopurl.getLength h (request opts)) tgen = Ret id
    /\ String.length id
       = Z.to_nat (Z.min (coopurl.getLength h (request opts)) 64)
    /\ Strings.forall_bytes is_lower_hex id = true
    /\ coopurl.post h s opts tgen tset
       = (Ret (Ok id),
          coopurl.set_db (Some (badger.mkDB false
            (<[id := written id (url.String (normalized u))
                       (effective_ttl h (request opts)) tset]> ∅
             ∪ badger.items d))) h).
Proof.
  intros Hdb Hopen Hparse Hfit.
  pose proof (getLength_pos h (request opts)) as Hpos.
  destruct (generateId_id (url.String (normalized u)) _ tgen Hpos)
    as (id & Hgen & Hlen & Hhex).
  exists id. repeat split; try assumption.
  unfold coopurl.post. fold (request opts). rewrite Hparse.
  fold (normalized u). fold (effective_ttl h (request opts)).
  rewrite Hgen, Hdb. unfold badger.Update. rewrite Hopen.
  rewrite write_as_SetEntry.
  rewrite SetEntry_accepts.
  - simpl. rewrite written_Key. reflexivity.
  - rewrite written_Key. lia.
  - rewrite written_Key. exact Hhex.
  - rewrite written_Value. exact Hfit.
Qed.

(** [Post] is [post] without the request options once the store is
    there. *)
Lemma Post_as_post h d s opts tgen tset :
  coopurl.db h = Some d ->
  coopurl.Post h s opts tgen tset = coopurl.post h s [] tgen tset.
Proof. intros Hdb. unfold coopurl.Post, coopurl.init. rewrite Hdb. reflexivity. Qed.

Lemma Get_open h d id now :
  coopurl.db h = Some d -> badger.closed d = false ->
  coopurl.Get h id now
  = (Ret (if badger.len id =? 0 then Err ErrEmptyKey
          else match badger.items d !! id with
               | None => Err ErrKeyNotFound
               | Some e =>
                   if badger.isExpired e now then Err ErrKeyNotFound
                   else Ok (badger.Value e)
               end), h).
Proof.
  intros Hdb Hopen. unfold coopurl.Get, coopurl.init.
  rewrite Hdb. cbv beta iota. unfold coopurl.get.
  rewrite Hdb, View_Get by exact Hopen. reflexivity.
Qed.

(** [init] leaves a handler with a store, or reports the error of
    [open]. *)
Lemma init_cases h :
  (exists d, coopurl.init h
             = (None, coopurl.set_db (Some d) h))
  \/ (exists e, coopurl.init h = (Some e, coopurl.set_db None h)).
Proof.
  unfold coopurl.init, coopurl.open.
  destruct (coopurl.db h) as [d|] eqn:Hdb.
  - left. exists d. destruct h; simpl in *; subst; reflexivity.
  - destruct (badger_Open (coopurl.getPath h)) as [d|e].
    + left. exists d. reflexivity.
    + right. exists e. reflexivity.
Qed.

End coopurl_facts.

(** [generateId] at the length that [getLength] resolved returns an id:
    name it and forget the call. *)
Tactic Notation "generated" ident(id) :=
  match goal with
  | |- context [coopurl.generateId ?v ?n ?t] =>
      let H := fresh in
      destruct (generateId_id v n t) as (id & H & _);
      [apply getLength_pos | rewrite H; clear H]
  end.

(** ** The identifier generator *)

Section generator.
Context `{Clock}.

Lemma take_first_chars n s : Strings.take n s = first_chars n s.
Proof.
  unfold Strings.take. revert s.
  induction n as [|n IH]; intros [|c s]; simpl; try reflexivity.
  rewrite IH. reflexivity.
Qed.

(** C4. For every URL string [u], clock reading [t] and requested
    length [n] (a length: [0 <= n]), [generateId u n] at time [t]
    returns the first [n] characters of the hexadecimal rendering of
    the SHA-256 digest of [u], the separator [-] and the printed [t],
    and the whole rendering when [n >= 64]; that rendering has 64
    characters, all lowercase hexadecimal digits. *)
Theorem generateId_refines_spec (u : string) (t : Time) (n : Z) :
  0 <= n ->
  coopurl.generateId u n t = Ret (spec_generateId u t n)
  /\ String.length (spec_generateId u t 64) = 64%nat
  /\ Strings.forall_bytes is_lower_hex (spec_generateId u t 64) = true.
Proof.
  intros Hn. split; [| split].
  - rewrite generateId_ok by exact Hn. unfold spec_generateId.
    fold (seed u t). fold (hexdigest (seed u t)).
    destruct (64 <=? n); [reflexivity |].
    rewrite take_first_chars. reflexivity.
  - apply hexdigest_length.
  - apply hexdigest_lower.
Qed.

End generator.

(** ** The effective length *)

Section effective_length.
Context `{Clock} `{Storage}.

Lemma post_returns (h : coopurl.Handler) (d : badger.DB) s opts tgen tset :
  exists res h',
    coopurl.post (coopurl.set_db (Some d) h) s opts tgen tset = (Ret res, h').
Proof.
  unfold coopurl.post.
  destruct (url.Parse s) as [u|e]; [| eauto].
  generated id.
  simpl. destruct (badger.Update d _) as [[e|] d']; eauto.
Qed.

Lemma Post_returns (h : coopurl.Handler) s opts tgen tset :
  exists res h', coopurl.Post h s opts tgen tset = (Ret res, h').
Proof.
  unfold coopurl.Post.
  destruct (init_cases h) as [(d & ->) | (e & ->)]; [| eauto].
  apply post_returns.
Qed.

(** C8. Whatever the handler's default length and the request's
    length, zero and negative ones included, the length that
    [getLength] resolves is strictly positive; [generateId] slices the
    64-character digest within bounds at that length and returns an
    id of [min n 64] characters; [post] on a handler with a store and
    [Post] on any handler return without panicking. *)
Theorem getLength_positive_no_panic (h : coopurl.Handler) (r : coopurl.req) :
  0 < coopurl.getLength h r
  /\ (forall u t, exists id,
        coopurl.generateId u (coopurl.getLength h r) t = Ret id
        /\ String.length id = Z.to_nat (Z.min (coopurl.getLength h r) 64))
  /\ (forall d s opts tgen tset, exists res h',
        coopurl.post (coopurl.set_db (Some d) h) s opts tgen tset = (Ret res, h'))
  /\ (forall s opts tgen tset, exists res h',
        coopurl.Post h s opts tgen tset = (Ret res, h')).
Proof.
  split; [apply getLength_pos |]. split; [| split].
  - intros u t.
    destruct (generateId_id u _ t (getLength_pos h r)) as (id & Hid & Hlen & _).
    exists id. split; assumption.
  - intros d s opts tgen tset. apply post_returns.
  - intros s opts tgen tset. apply Post_returns.
Qed.

End effective_length.

(** ** [Post] *)

Section Post_facts.
Context `{Clock} `{Storage}.

Lemma Parse_example_com : url.Parse "http://example.com" = Ok example_com.
Proof. computed. Qed.

Lemma String_example_com : url.String (normalized example_com) = "http://example.com".
Proof. computed. Qed.

Lemma example_com_fits :
  badger.len (url.String (normalized example_com)) <= badger.ValueLogFileSize.
Proof. rewrite String_example_com. vm_compute. discriminate. Qed.

(** The id of [post] has the length that its options resolve to. *)
Lemma post_length h d s opts tgen tset u :
  coopurl.db h = Some d -> badger.closed d = false ->
  url.Parse s = Ok u ->
  badger.len (url.String (normalized u)) <= badger.ValueLogFileSize ->
  exists id h',
    coopurl.post h s opts tgen tset = (Ret (Ok id), h')
    /\ String.length id = Z.to_nat (Z.min (coopurl.getLength h (request opts)) 64)
    /\ Strings.forall_bytes is_lower_hex id = true.
Proof.
  intros Hdb Hopen Hparse Hfit.
  destruct (post_ok h d s opts tgen tset u Hdb Hopen Hparse Hfit)
    as (id & _ & Hlen & Hhex & Hpost).
  eauto.
Qed.

(** [post], handed [WithLength n], does cut the id to [n] characters. *)
Lemma post_honours_WithLength h d s n tgen tset u :
  coopurl.db h = Some d -> badger.closed d = false ->
  url.Parse s = Ok u ->
  badger.len (url.String (normalized u)) <= badger.ValueLogFileSize ->
  1 <= n <= 64 ->
  exists id h',
    coopurl.post h s [coopurl.WithLength n] tgen tset = (Ret (Ok id), h')
    /\ String.length id = Z.to_nat n.
Proof.
  intros Hdb Hopen Hparse Hfit Hn.
  destruct (post_length h d s [coopurl.WithLength n] tgen tset u
              Hdb Hopen Hparse Hfit) as (id & h' & Hpost & Hlen & _).
  exists id, h'. split; [exact Hpost |].
  rewrite Hlen, getLength_request by (simpl; lia). simpl. f_equal. lia.
Qed.

(** [post], handed [WithTTL t], does write the entry with an expiry. *)
Lemma post_honours_WithTTL h d s t tgen tset u :
  coopurl.db h = Some d -> badger.closed d = false ->
  url.Parse s = Ok u ->
  badger.len (url.String (normalized u)) <= badger.ValueLogFileSize ->
  t <> 0 ->
  exists id d' e,
    coopurl.post h s [coopurl.WithTTL t] tgen tset
    = (Ret (Ok id), coopurl.set_db (Some d') h)
    /\ badger.items d' !! id = Some e
    /\ badger.ExpiresAt e = time_Unix (time_Add tset t) mod 2 ^ 64.
Proof.
  intros Hdb Hopen Hparse Hfit Ht.
  destruct (post_ok h d s [coopurl.WithTTL t] tgen tset u Hdb Hopen Hparse Hfit)
    as (id & _ & _ & _ & Hpost).
  eexists id, _, _. split; [exact Hpost |]. split; [apply lookup_committed |].
  unfold written, effective_ttl. simpl.
  destruct (Z.eqb_spec t 0) as [| _]; [contradiction |].
  destruct (Z.eqb_spec t 0) as [| _]; [contradiction | reflexivity].
Qed.

(** [Post] answers as if it had been called without options. *)
Lemma Post_ignores_options h s opts tgen tset :
  coopurl.Post h s opts tgen tset = coopurl.Post h s [] tgen tset.
Proof. reflexivity. Qed.


(** C1 (the code departs from the claim). [Post] does not hand its
    request options to [post]: on a handler whose default length is
    unset, [Post("http://example.com", WithLength(3))] returns an id of
    8 lowercase hexadecimal characters, the built-in default, where the
    claim has 3. *)
Theorem Post_drops_length_override
    (items : gmap string badger.Entry) (p : string) (t : Z) (sch : string)
    (tgen tset : Time) :
  let h := coopurl.mkHandler (Some (badger.mkDB false items)) p t 0 sch in
  exists id h',
    coopurl.Post h "http://example.com" [coopurl.WithLength 3] tgen tset
    = (Ret (Ok id), h')
    /\ String.length id = 8%nat
    /\ Strings.forall_bytes is_lower_hex id = true.
Proof.
  intros h.
  rewrite (Post_as_post h (badger.mkDB false items)) by reflexivity.
  destruct (post_length h (badger.mkDB false items) "http://example.com" []
              tgen tset example_com eq_refl eq_refl Parse_example_com
              example_com_fits) as (id & h' & Hpost & Hlen & Hhex).
  exists id, h'. repeat split; assumption.
Qed.

(** C2 (the code departs from the claim). For the same reason, on a
    handler without default TTL,
    [Post("http://example.com", WithTTL(time.Hour))] writes the entry
    without expiry, where the claim has it expire after an hour. *)
Theorem Post_drops_ttl_override
    (items : gmap string badger.Entry) (p : string) (n : Z) (sch : string)
    (tgen tset : Time) :
  let h := coopurl.mkHandler (Some (badger.mkDB false items)) p 0 n sch in
  exists id d' e,
    coopurl.Post h "http://example.com" [coopurl.WithTTL 3600000000000] tgen tset
    = (Ret (Ok id), coopurl.set_db (Some d') h)
    /\ badger.items d' !! id = Some e
    /\ badger.Value e = "http://example.com"
    /\ badger.ExpiresAt e = 0.
Proof.
  intros h.
  rewrite (Post_as_post h (badger.mkDB false items)) by reflexivity.
  destruct (post_ok h (badger.mkDB false items) "http://example.com" []
              tgen tset example_com eq_refl eq_refl Parse_example_com
              example_com_fits) as (id & _ & _ & _ & Hpost).
  eexists id, _, _. split; [exact Hpost |].
  split; [apply lookup_committed |].
  split; [rewrite written_Value; apply String_example_com | reflexivity].
Qed.

(** C5. On a handler whose store is open, for every input string whose
    parse yields an empty scheme (and whose rendering the store
    accepts), [Post] returns an id and stores under it the rendering of
    the URL with its scheme set to [http]; for the input [example.com]
    the stored value is [http://example.com]. *)
Theorem Post_defaults_scheme h d s opts tgen tset u :
  coopurl.db h = Some d -> badger.closed d = false ->
  url.Parse s = Ok u -> url.Scheme u = "" ->
  badger.len (url.String (url.set_Scheme "http" u)) <= badger.ValueLogFileSize ->
  exists id d' e,
    coopurl.Post h s opts tgen tset = (Ret (Ok id), coopurl.set_db (Some d') h)
    /\ badger.items d' !! id = Some e
    /\ badger.Value e = url.String (url.set_Scheme "http" u)
    /\ url.Scheme (url.set_Scheme "http" u) = "http"
    /\ (s = "example.com" -> badger.Value e = "http://example.com").
Proof.
  intros Hdb Hopen Hparse Hscheme Hfit.
  assert (Hnorm : normalized u = url.set_Scheme "http" u).
  { unfold normalized. rewrite Hscheme. reflexivity. }
  rewrite (Post_as_post h d) by exact Hdb.
  destruct (post_ok h d s [] tgen tset u Hdb Hopen Hparse)
    as (id & _ & _ & _ & Hpost); [rewrite Hnorm; exact Hfit |].
  rewrite Hnorm in Hpost.
  eexists id, _, _. split; [exact Hpost |].
  split; [apply lookup_committed |].
  rewrite written_Value. repeat split.
  intros ->. vm_compute in Hparse. injection Hparse as <-.
  vm_compute. reflexivity.
Qed.

(** C10. If the input string of [Post] does not parse, [Post] returns
    the parse error and the handler, its store included, is as it was:
    no key is written or overwritten. *)
Theorem Post_parse_error_keeps_store h d s opts tgen tset e :
  coopurl.db h = Some d -> url.Parse s = Err e ->
  coopurl.Post h s opts tgen tset = (Ret (Err e), h).
Proof.
  intros Hdb Hparse. rewrite (Post_as_post h d) by exact Hdb.
  unfold coopurl.post. rewrite Hparse. reflexivity.
Qed.

(** The same on a handler that [Post] has to open first: the store is
    what [init] opened. *)
Lemma Post_parse_error_after_init h s opts tgen tset e :
  url.Parse s = Err e ->
  snd (coopurl.Post h s opts tgen tset) = snd (coopurl.init h).
Proof.
  intros Hparse. unfold coopurl.Post.
  destruct (coopurl.init h) as [[err|] h1]; [reflexivity |].
  unfold coopurl.post. rewrite Hparse. reflexivity.
Qed.

End Post_facts.

(** ** [Get] *)

Section Get_facts.
Context `{Clock} `{Storage}.

Lemma len_nonempty id : id <> "" -> (badger.len id =? 0) = false.
Proof. destruct id; [congruence |]. intros _. reflexivity. Qed.

Lemma nonempty_of_length id : (0 < String.length id)%nat -> id <> "".
Proof. destruct id; simpl; [lia | discriminate]. Qed.

(** An entry written without TTL never expires; one written with a TTL
    is live as long as the clock is short of its expiry. *)
Lemma written_live id v ttl tset tget :
  ttl = 0 \/ time_Unix tget mod 2 ^ 64 < time_Unix (time_Add tset ttl) mod 2 ^ 64 ->
  badger.isExpired (written id v ttl tset) tget = false.
Proof.
  intros Hlive. unfold written, badger.isExpired.
  destruct (Z.eqb_spec ttl 0) as [-> | Hne]; [reflexivity |]. simpl.
  destruct Hlive as [-> | Hlt]; [contradiction |].
  destruct (_ =? 0); [reflexivity |]. lia.
Qed.

(** C3, as amended. If [Post] accepts the string [s] and returns [id],
    then, as long as the entry has not expired, [Get id] on the
    resulting handler returns what [Post] stored: the rendering
    ([URL.String]) of the parsed [s], with the scheme [http] when the
    parse found none. *)
Theorem Get_after_Post h s opts tgen tset tget id h1 :
  coopurl.Post h s opts tgen tset = (Ret (Ok id), h1) ->
  coopurl.TTL h = 0
  \/ time_Unix tget mod 2 ^ 64
     < time_Unix (time_Add tset (coopurl.TTL h)) mod 2 ^ 64 ->
  exists u,
    url.Parse s = Ok u
    /\ coopurl.Get h1 id tget = (Ret (Ok (url.String (normalized u))), h1).
Proof.
  intros HPost Hlive. unfold coopurl.Post in HPost.
  destruct (init_cases h) as [(d0 & Hinit) | (e & Hinit)];
    rewrite Hinit in HPost; [| discriminate].
  apply post_inv in HPost.
  destruct HPost as (u & d & Hparse & Hdb & Hopen & Hgen & ->).
  exists u. split; [exact Hparse |].
  pose proof (getLength_pos (coopurl.set_db (Some d0) h) (request [])) as Hpos.
  destruct (generateId_id (url.String (normalized u)) _ tgen Hpos)
    as (id' & Hgen' & Hlen & _).
  rewrite Hgen in Hgen'. injection Hgen' as <-.
  erewrite Get_open; [| reflexivity | reflexivity]. simpl.
  rewrite len_nonempty by (apply nonempty_of_length; lia).
  rewrite lookup_committed, written_live, written_Value; [reflexivity |].
  exact Hlive.
Qed.

(** C6, as amended. On a handler whose store is open, for every
    non-empty id that is not a key of the store, or whose entry has
    expired, [Get id] fails with badger's [ErrKeyNotFound] and returns
    no URL. *)
Theorem Get_missing_key h d id now :
  coopurl.db h = Some d -> badger.closed d = false -> id <> "" ->
  badger.items d !! id = None
  \/ (exists e, badger.items d !! id = Some e /\ badger.isExpired e now = true) ->
  coopurl.Get h id now = (Ret (Err ErrKeyNotFound), h).
Proof.
  intros Hdb Hopen Hid Hmiss.
  rewrite (Get_open h d) by assumption. rewrite len_nonempty by exact Hid.
  destruct Hmiss as [-> | (e & -> & ->)]; reflexivity.
Qed.

(** The empty id is refused before the lookup. *)
Lemma Get_empty_key h d now :
  coopurl.db h = Some d -> badger.closed d = false ->
  coopurl.Get h "" now = (Ret (Err ErrEmptyKey), h).
Proof. intros Hdb Hopen. rewrite (Get_open h d) by assumption. reflexivity. Qed.

End Get_facts.

(** ** The [Scheme] field *)

Section Scheme_facts.
Context `{Clock} `{Storage}.

Lemma init_Scheme sch h :
  coopurl.init (with_Scheme sch h) = carry sch (coopurl.init h).
Proof.
  unfold coopurl.init, coopurl.open, carry. simpl.
  destruct (coopurl.db h) as [d|]; [reflexivity |].
  change (coopurl.getPath (with_Scheme sch h)) with (coopurl.getPath h).
  destruct (badger_Open (coopurl.getPath h)); reflexivity.
Qed.

Lemma post_Scheme sch h s opts tgen tset :
  coopurl.post (with_Scheme sch h) s opts tgen tset
  = carry sch (coopurl.post h s opts tgen tset).
Proof.
  unfold coopurl.post, carry.
  destruct (url.Parse s) as [u|e]; [| reflexivity].
  change (coopurl.getLength (with_Scheme sch h)) with (coopurl.getLength h).
  destruct (coopurl.generateId _ _ tgen) as [id|m]; [| reflexivity].
  simpl. destruct (coopurl.db h) as [d|]; [| reflexivity].
  destruct (badger.Update d _) as [[e|] d']; reflexivity.
Qed.

Lemma step_Scheme sch h c :
  coopurl.step (with_Scheme sch h) c = carry sch (coopurl.step h c).
Proof.
  destruct c as [u opts tgen tset | id now]; simpl.
  - unfold coopurl.Post. rewrite init_Scheme. unfold carry at 1.
    destruct (coopurl.init h) as [[e|] h1]; simpl; [reflexivity |].
    apply post_Scheme.
  - unfold coopurl.Get. rewrite init_Scheme. unfold carry at 1.
    destruct (coopurl.init h) as [[e|] h1]; reflexivity.
Qed.

Lemma run_Scheme sch cs : forall h,
  coopurl.run (with_Scheme sch h) cs = carry sch (coopurl.run h cs).
Proof.
  induction cs as [|c cs IH]; intros h; simpl; [reflexivity |].
  rewrite step_Scheme. unfold carry at 1.
  destruct (coopurl.step h c) as [o h1]. simpl.
  rewrite IH. unfold carry.
  destruct (coopurl.run h1 cs) as [os h2]. reflexivity.
Qed.

(** C9. Two handlers that differ only in [Scheme] answer every
    sequence of [Post] and [Get] calls with the same results and end
    with the same store: the defaulted scheme is the literal [http]. *)
Theorem Scheme_is_ignored (s1 s2 : string) (h : coopurl.Handler)
    (cs : list coopurl.call) :
  fst (coopurl.run (with_Scheme s1 h) cs) = fst (coopurl.run (with_Scheme s2 h) cs)
  /\ coopurl.db (snd (coopurl.run (with_Scheme s1 h) cs))
     = coopurl.db (snd (coopurl.run (with_Scheme s2 h) cs)).
Proof. rewrite !run_Scheme. split; reflexivity. Qed.

End Scheme_facts.

(** ** The redirect handler *)

Section ServeHTTP_facts.
Context `{Clock} `{Storage}.

Lemma LastIndexByte_none s c :
  Strings.ContainsByte s c = false -> Strings.LastIndexByte s c = None.
Proof.
  unfold Strings.ContainsByte. induction s as [|x r IH]; simpl; [reflexivity |].
  destruct (Strings.eqb_byte x c); [discriminate |].
  destruct (Strings.IndexByte r c); [discriminate |].
  intros _. rewrite IH by reflexivity. reflexivity.
Qed.

Lemma LastIndexByte_app dir seg c :
  Strings.ContainsByte seg c = false ->
  Strings.LastIndexByte (dir ++ String c seg) c = Some (String.length dir).
Proof.
  intros Hseg. induction dir as [|x r IH]; simpl.
  - rewrite (LastIndexByte_none _ _ Hseg).
    unfold Strings.eqb_byte. rewrite Ascii.eqb_refl. reflexivity.
  - rewrite IH. reflexivity.
Qed.

Lemma take_app dir rest : Strings.take (String.length dir) (dir ++ rest) = dir.
Proof.
  unfold Strings.take. induction dir as [|x r IH]; simpl.
  - destruct rest; reflexivity.
  - rewrite IH. reflexivity.
Qed.

Lemma substring_all s : String.substring 0 (String.length s) s = s.
Proof. induction s as [|x r IH]; simpl; [reflexivity | rewrite IH; reflexivity]. Qed.

Lemma drop_app dir rest : Strings.drop (String.length dir) (dir ++ rest) = rest.
Proof.
  unfold Strings.drop. induction dir as [|x r IH]; simpl.
  - rewrite Nat.sub_0_r. apply substring_all.
  - exact IH.
Qed.

Lemma append_cons x (a b : string) : (String x a ++ b)%string = String x (a ++ b).
Proof. reflexivity. Qed.

Lemma append_assoc (a b c : string) : ((a ++ b) ++ c)%string = (a ++ (b ++ c))%string.
Proof.
  induction a as [|x a IH]; [reflexivity |].
  rewrite !append_cons, IH. reflexivity.
Qed.

Lemma append_length (a b : string) :
  String.length (a ++ b) = (String.length a + String.length b)%nat.
Proof.
  induction a as [|x a IH]; [reflexivity |].
  rewrite append_cons. simpl. rewrite IH. reflexivity.
Qed.

(** [path.Split] cuts after the last slash: the file part of
    [dir/seg] is [seg]. *)
Lemma Split_last_segment dir seg :
  Strings.ContainsByte seg "/" = false ->
  path.Split (dir ++ "/" ++ seg) = (dir ++ "/", seg).
Proof.
  intros Hseg. unfold path.Split. change ("/" ++ seg) with (String "/" seg).
  rewrite (LastIndexByte_app dir seg "/" Hseg).
  replace (S (String.length dir)) with (String.length (dir ++ "/"))
    by (rewrite append_length; simpl; lia).
  change (String "/" seg) with ("/" ++ seg).
  rewrite <- append_assoc, take_app, drop_app. reflexivity.
Qed.

(** [http.Redirect] on a fresh response sends the status it is given
    and the target, made absolute, as [Location]. *)
Lemma Redirect_sent w r u code :
  http.sent w = None ->
  http.status (http.Redirect w r u code) = Some code
  /\ http.sent_header "Location" (http.Redirect w r u code)
     = Some [http.hexEscapeNonASCII (http.absolute r u)].
Proof.
  intros Hfresh. unfold http.Redirect.
  set (loc := http.hexEscapeNonASCII (http.absolute r u)).
  set (body := ("<a href=" ++ _)%string).
  destruct (negb _ && (_ || _)); destruct (negb _ && String.eqb _ "GET");
    unfold http.status, http.sent_header, http.Write, http.WriteHeader,
      http.Header_Set; simpl; rewrite Hfresh; simpl;
    (split; [reflexivity |]);
    rewrite ?lookup_insert_ne by discriminate; apply lookup_insert_eq.
Qed.

Lemma absolute_example_com r : http.absolute r "http://example.com" = "http://example.com".
Proof. unfold http.absolute. rewrite Parse_example_com. reflexivity. Qed.

(** C7. On a handler whose store is open and a fresh response: when
    the final segment of the request path is a key (badger has no
    empty key) whose live entry holds [http://example.com],
    [ServeHTTP] answers 301 (moved permanently) with the header
    [Location: http://example.com]; when it is not a key of the store,
    or the entry under it has expired, [ServeHTTP] answers 500. *)
Theorem ServeHTTP_redirects h d w r now id :
  coopurl.db h = Some d -> badger.closed d = false ->
  http.sent w = None ->
  snd (path.Split (http.URL_Path r)) = id ->
  (forall e,
     id <> "" -> badger.items d !! id = Some e ->
     badger.Value e = "http://example.com" -> badger.isExpired e now = false ->
     exists w',
       coopurl.ServeHTTP h w r now = (Ret w', h)
       /\ http.status w' = Some http.StatusMovedPermanently
       /\ http.sent_header "Location" w' = Some ["http://example.com"])
  /\ (badger.items d !! id = None
      \/ (exists e, badger.items d !! id = Some e /\ badger.isExpired e now = true) ->
      exists w',
        coopurl.ServeHTTP h w r now = (Ret w', h)
        /\ http.status w' = Some http.StatusInternalServerError).
Proof.
  intros Hdb Hopen Hfresh Hid.
  assert (Hserve : coopurl.ServeHTTP h w r now
    = match coopurl.Get h id now with
      | (Panic m, h) => (Panic m, h)
      | (Ret (Err _), h) =>
          (Ret (http.WriteHeader http.StatusInternalServerError w), h)
      | (Ret (Ok u), h) =>
          match coopurl.redirect w r u with
          | (Some _, w) =>
              (Ret (http.WriteHeader http.StatusInternalServerError w), h)
          | (None, w) => (Ret w, h)
          end
      end).
  { unfold coopurl.ServeHTTP, coopurl.init. rewrite Hdb. cbv beta iota.
    destruct (path.Split (http.URL_Path r)) as [dir id0]. simpl in Hid.
    subst id0. reflexivity. }
  rewrite Hserve, (Get_open h d) by assumption. split.
  - intros e Hne Hlook Hval Hlive.
    rewrite len_nonempty, Hlook, Hlive, Hval by exact Hne.
    unfold coopurl.redirect. rewrite Parse_example_com.
    change (url.String example_com) with (url.String (normalized example_com)).
    rewrite String_example_com.
    destruct (Redirect_sent w r "http://example.com"
                http.StatusMovedPermanently Hfresh) as [Hstatus Hloc].
    rewrite absolute_example_com in Hloc.
    eexists. split; [reflexivity |]. split; [exact Hstatus | exact Hloc].
  - intros Hmiss.
    exists (http.WriteHeader http.StatusInternalServerError w).
    split.
    + destruct (badger.len id =? 0); [reflexivity |].
      destruct Hmiss as [-> | (e & -> & ->)]; reflexivity.
    + unfold http.status, http.WriteHeader. rewrite Hfresh. reflexivity.
Qed.

End ServeHTTP_facts.

(** ** The request options of [post] *)

Section option_facts.
Context `{Clock} `{Storage}.

Lemma request_snoc opts (o : coopurl.ReqOptions) :
  request (opts ++ [o]) = o (request opts).
Proof. unfold request. rewrite fold_left_app. reflexivity. Qed.

Lemma set_db_same h d : coopurl.db h = Some d -> coopurl.set_db (Some d) h = h.
Proof. intros Hdb. destruct h; simpl in *; subst; reflexivity. Qed.

(** X1. [post] takes the length from the last [WithLength] of its
    options when that length is positive, whatever the handler's
    default: the id has [min n 64] lowercase hexadecimal characters. *)
Theorem post_length_from_option h d s opts n tgen tset u :
  coopurl.db h = Some d -> badger.closed d = false ->
  url.Parse s = Ok u ->
  badger.len (url.String (normalized u)) <= badger.ValueLogFileSize ->
  1 <= n ->
  exists id h',
    coopurl.post h s (opts ++ [coopurl.WithLength n]) tgen tset = (Ret (Ok id), h')
    /\ String.length id = Z.to_nat (Z.min n 64)
    /\ Strings.forall_bytes is_lower_hex id = true.
Proof.
  intros Hdb Hopen Hparse Hfit Hn.
  destruct (post_length h d s (opts ++ [coopurl.WithLength n]) tgen tset u
              Hdb Hopen Hparse Hfit) as (id & h' & Hpost & Hlen & Hhex).
  exists id, h'. split; [exact Hpost |]. split; [| exact Hhex].
  rewrite Hlen, request_snoc, getLength_request by (simpl; lia). reflexivity.
Qed.

(** X2. [post] takes the TTL from the last [WithTTL] of its options
    when it is not zero, whatever the handler's default: the entry is
    written with the URL's rendering and expires at
    [uint64(Unix(tset + t))]. *)
Theorem post_ttl_from_option h d s opts t tgen tset u :
  coopurl.db h = Some d -> badger.closed d = false ->
  url.Parse s = Ok u ->
  badger.len (url.String (normalized u)) <= badger.ValueLogFileSize ->
  t <> 0 ->
  exists id d' e,
    coopurl.post h s (opts ++ [coopurl.WithTTL t]) tgen tset
    = (Ret (Ok id), coopurl.set_db (Some d') h)
    /\ badger.items d' !! id = Some e
    /\ badger.Value e = url.String (normalized u)
    /\ badger.ExpiresAt e = time_Unix (time_Add tset t) mod 2 ^ 64.
Proof.
  intros Hdb Hopen Hparse Hfit Ht.
  destruct (post_ok h d s (opts ++ [coopurl.WithTTL t]) tgen tset u
              Hdb Hopen Hparse Hfit) as (id & _ & _ & _ & Hpost).
  eexists id, _, _. split; [exact Hpost |]. split; [apply lookup_committed |].
  split; [apply written_Value |].
  unfold written, effective_ttl. rewrite request_snoc. simpl.
  destruct (Z.eqb_spec t 0) as [| _]; [contradiction |].
  destruct (Z.eqb_spec t 0) as [| _]; [contradiction | reflexivity].
Qed.

(** X3. A request length that is not positive and a request TTL of
    zero do not override anything: [post] answers as it does without
    options, with the handler's defaults. *)
Theorem post_ignores_unset_options h s n tgen tset :
  n <= 0 ->
  coopurl.post h s [coopurl.WithLength n; coopurl.WithTTL 0] tgen tset
  = coopurl.post h s [] tgen tset.
Proof.
  intros Hn. unfold coopurl.post.
  change (fold_left _ [coopurl.WithLength n; coopurl.WithTTL 0] _)
    with (coopurl.mkReq 0 n).
  change (fold_left _ [] (coopurl.mkReq 0 0)) with (coopurl.mkReq 0 0).
  assert (Hlen : coopurl.getLength h (coopurl.mkReq 0 n)
                 = coopurl.getLength h (coopurl.mkReq 0 0)).
  { unfold coopurl.getLength. simpl.
    destruct (0 <? n) eqn:E; [lia | reflexivity]. }
  rewrite Hlen. reflexivity.
Qed.

End option_facts.

(** ** What [Post] and [Get] leave of the handler *)

Section frame_facts.
Context `{Clock} `{Storage}.

(** X4. A successful [Post] on a handler with a store writes the key
    it returns and no other: every other key keeps its entry, the
    store stays as open as it was, and the handler keeps its path, TTL,
    length and scheme. *)
Theorem Post_writes_one_key h d s opts tgen tset id h1 :
  coopurl.db h = Some d ->
  coopurl.Post h s opts tgen tset = (Ret (Ok id), h1) ->
  exists d1,
    h1 = coopurl.set_db (Some d1) h
    /\ badger.closed d1 = badger.closed d
    /\ is_Some (badger.items d1 !! id)
    /\ forall k, k <> id -> badger.items d1 !! k = badger.items d !! k.
Proof.
  intros Hdb HPost. rewrite (Post_as_post h d) in HPost by exact Hdb.
  apply post_inv in HPost.
  destruct HPost as (u & d0 & _ & Hdb0 & Hopen & _ & ->).
  rewrite Hdb in Hdb0. injection Hdb0 as <-.
  eexists. split; [reflexivity |]. simpl. split; [congruence |].
  split; [rewrite lookup_committed; eauto |].
  intros k Hk. rewrite lookup_union_r; [reflexivity |].
  rewrite lookup_insert_ne by congruence. apply lookup_empty.
Qed.

Lemma Post_failure h d s opts tgen tset e h1 :
  coopurl.db h = Some d ->
  coopurl.Post h s opts tgen tset = (Ret (Err e), h1) ->
  h1 = h.
Proof.
  intros Hdb HPost. rewrite (Post_as_post h d) in HPost by exact Hdb.
  unfold coopurl.post in HPost.
  destruct (url.Parse s) as [u|e0]; [| congruence].
  revert HPost. generated id. rewrite Hdb. unfold badger.Update.
  destruct (badger.closed d).
  - intros [= _ <-]. apply set_db_same, Hdb.
  - rewrite write_as_SetEntry.
    destruct (badger.SetEntry _ _) as [txn|e1]; [discriminate |].
    intros [= _ <-]. apply set_db_same, Hdb.
Qed.

(** X5. A [Post] that fails, on a handler with a store, leaves the
    handler and its store as they were: no partial write. *)
Theorem Post_failure_writes_nothing h d s opts tgen tset e h1 :
  coopurl.db h = Some d ->
  coopurl.Post h s opts tgen tset = (Ret (Err e), h1) ->
  h1 = h.
Proof. apply Post_failure. Qed.

Lemma Get_reads_only_lemma h d id now :
  coopurl.db h = Some d ->
  exists r, coopurl.Get h id now = (Ret r, h).
Proof.
  intros Hdb. unfold coopurl.Get, coopurl.init, coopurl.get.
  rewrite Hdb. cbv beta iota. rewrite Hdb. eauto.
Qed.

(** X6. [Get] only reads: on a handler with a store it returns, with a
    URL or an error, and the handler and its store are as they were. *)
Theorem Get_reads_only h d id now :
  coopurl.db h = Some d ->
  exists r, coopurl.Get h id now = (Ret r, h).
Proof. apply Get_reads_only_lemma. Qed.

(** X7. On a handler without store ([db] is [nil]) whose store cannot
    be opened, [Get] and [Post] return the error of [badger.Open] and
    the handler stays without store. *)
Theorem lazy_open_failure h id s opts now tgen tset e :
  coopurl.db h = None ->
  badger_Open (coopurl.getPath h) = Err e ->
  coopurl.Get h id now = (Ret (Err e), h)
  /\ coopurl.Post h s opts tgen tset = (Ret (Err e), h).
Proof.
  intros Hdb Hopen.
  assert (Hinit : coopurl.init h = (Some e, h)).
  { unfold coopurl.init, coopurl.open. rewrite Hdb, Hopen.
    destruct h; simpl in *; subst; reflexivity. }
  unfold coopurl.Get, coopurl.Post. rewrite Hinit. split; reflexivity.
Qed.

(** X8. On a handler without store whose store opens, [Get] and [Post]
    open it at [getPath] and then answer as they do on the opened
    handler. *)
Theorem lazy_open_success h id s opts now tgen tset d :
  coopurl.db h = None ->
  badger_Open (coopurl.getPath h) = Ok d ->
  coopurl.Get h id now = coopurl.Get (coopurl.set_db (Some d) h) id now
  /\ coopurl.Post h s opts tgen tset
     = coopurl.Post (coopurl.set_db (Some d) h) s opts tgen tset.
Proof.
  intros Hdb Hopen.
  assert (Hinit : coopurl.init h = (None, coopurl.set_db (Some d) h)).
  { unfold coopurl.init, coopurl.open. rewrite Hdb, Hopen. reflexivity. }
  unfold coopurl.Get, coopurl.Post. rewrite Hinit. split; reflexivity.
Qed.

End frame_facts.

(** ** Expiry and [Close] *)

Section lifetime_facts.
Context `{Clock} `{Storage}.

(** When the entry that [post] writes stops being served: never
    without TTL or when the deadline wraps to zero, else from the
    deadline on. *)
Lemma written_expired id v ttl tset tget :
  badger.isExpired (written id v ttl tset) tget
  = negb ((ttl =? 0)
          || (time_Unix (time_Add tset ttl) mod 2 ^ 64 =? 0)
          || (time_Unix tget mod 2 ^ 64 <? time_Unix (time_Add tset ttl) mod 2 ^ 64)).
Proof.
  unfold written, badger.isExpired.
  destruct (Z.eqb_spec ttl 0) as [-> | Hne]; [reflexivity |]. simpl.
  destruct (_ =? 0); [reflexivity |]. simpl.
  rewrite Z.leb_antisym. reflexivity.
Qed.

(** X9. What [Get] answers for the id of a successful [Post]: the
    stored rendering as long as the handler's TTL is zero, or the
    deadline [uint64(Unix(tset + TTL))] is zero (such an entry never
    expires), or the clock is short of the deadline; from the deadline
    on, the not-found error. *)
Theorem Get_of_posted h s opts tgen tset tget id h1 :
  coopurl.Post h s opts tgen tset = (Ret (Ok id), h1) ->
  exists u,
    url.Parse s = Ok u
    /\ coopurl.Get h1 id tget
       = (Ret (if (coopurl.TTL h =? 0)
                  || (time_Unix (time_Add tset (coopurl.TTL h)) mod 2 ^ 64 =? 0)
                  || (time_Unix tget mod 2 ^ 64
                      <? time_Unix (time_Add tset (coopurl.TTL h)) mod 2 ^ 64)
               then Ok (url.String (normalized u))
               else Err ErrKeyNotFound), h1).
Proof.
  intros HPost. unfold coopurl.Post in HPost.
  destruct (init_cases h) as [(d0 & Hinit) | (e & Hinit)];
    rewrite Hinit in HPost; [| discriminate].
  apply post_inv in HPost.
  destruct HPost as (u & d & Hparse & Hdb & Hopen & Hgen & ->).
  exists u. split; [exact Hparse |].
  pose proof (getLength_pos (coopurl.set_db (Some d0) h) (request [])) as Hpos.
  destruct (generateId_id (url.String (normalized u)) _ tgen Hpos)
    as (id' & Hgen' & Hlen & _).
  rewrite Hgen in Hgen'. injection Hgen' as <-.
  erewrite Get_open; [| reflexivity | reflexivity]. simpl.
  rewrite len_nonempty by (apply nonempty_of_length; lia).
  rewrite lookup_committed, written_expired, written_Value.
  change (effective_ttl (coopurl.set_db (Some d0) h) (request []))
    with (coopurl.TTL h).
  destruct (_ || _ || _); reflexivity.
Qed.



End lifetime_facts.

(** ** The identifier generator at its bounds *)

Section generator_bounds.
Context `{Clock}.

Lemma take_take n m s :
  (n <= m)%nat -> Strings.take n (Strings.take m s) = Strings.take n s.
Proof.
  unfold Strings.take. revert m s.
  induction n as [|n IH]; intros [|m] [|c s] Hnm; simpl; try reflexivity; try lia.
  rewrite IH by lia. reflexivity.
Qed.

Lemma take_ge n s : (String.length s <= n)%nat -> Strings.take n s = s.
Proof.
  unfold Strings.take. revert s.
  induction n as [|n IH]; intros [|c s] Hlen; simpl in *; try reflexivity; try lia.
  rewrite IH by lia. reflexivity.
Qed.

(** X11. [generateId] panics exactly on a negative length, where the
    slice [sha[:n]] is out of range; from zero on it returns. *)
Theorem generateId_panics_iff_negative u n t :
  (exists m, coopurl.generateId u n t = Panic m) <-> n < 0.
Proof.
  split.
  - intros [m Hm]. destruct (Z.lt_ge_cases n 0) as [Hneg | Hpos]; [exact Hneg |].
    rewrite generateId_ok in Hm by exact Hpos. discriminate.
  - intros Hneg. unfold coopurl.generateId. fold (seed u t).
    fold (hexdigest (seed u t)). rewrite hexdigest_length.
    change (Z.of_nat 64) with 64.
    destruct (Z.leb_spec 64 n) as [Hge | _]; [lia |].
    unfold coopurl.slice_to.
    destruct (Z.ltb_spec n 0) as [_ | Hge]; [eauto | lia].
Qed.

(** X12. The ids of one URL at one clock reading are prefixes of one
    another: the id of length [n] is the first [n] characters of the
    id of any greater length. *)
Theorem generateId_shorter_is_prefix u t n m :
  0 <= n <= m ->
  exists a b,
    coopurl.generateId u n t = Ret a
    /\ coopurl.generateId u m t = Ret b
    /\ a = Strings.take (Z.to_nat n) b.
Proof.
  intros Hnm. rewrite !generateId_ok by lia.
  eexists _, _. split; [reflexivity |]. split; [reflexivity |].
  pose proof (hexdigest_length (seed u t)) as Hlen.
  destruct (64 <=? n) eqn:En; destruct (64 <=? m) eqn:Em; try lia.
  - symmetry. apply take_ge. lia.
  - reflexivity.
  - symmetry. apply take_take. lia.
Qed.

End generator_bounds.

(** ** The handler's defaults and [New] *)

Section default_facts.
Context `{Clock} `{Storage}.

(** X13. What [Post] resolves, whatever options it is given: the id
    has [min n 64] characters for the handler's default length [n],
    8 when that is not positive, and the entry expires at
    [uint64(Unix(tset + TTL))] for the handler's default TTL, never
    when that is zero. *)
Theorem Post_uses_handler_defaults h d s opts tgen tset u :
  coopurl.db h = Some d -> badger.closed d = false ->
  url.Parse s = Ok u ->
  badger.len (url.String (normalized u)) <= badger.ValueLogFileSize ->
  exists id d' e,
    coopurl.Post h s opts tgen tset = (Ret (Ok id), coopurl.set_db (Some d') h)
    /\ String.length id
       = Z.to_nat (Z.min (if 0 <? coopurl.Length h then coopurl.Length h else 8) 64)
    /\ badger.items d' !! id = Some e
    /\ badger.Value e = url.String (normalized u)
    /\ badger.ExpiresAt e
       = if coopurl.TTL h =? 0 then 0
         else time_Unix (time_Add tset (coopurl.TTL h)) mod 2 ^ 64.
Proof.
  intros Hdb Hopen Hparse Hfit.
  rewrite (Post_as_post h d) by exact Hdb.
  destruct (post_ok h d s [] tgen tset u Hdb Hopen Hparse Hfit)
    as (id & _ & Hlen & _ & Hpost).
  eexists id, _, _. split; [exact Hpost |]. split; [exact Hlen |].
  split; [apply lookup_committed |]. split; [apply written_Value |].
  unfold written, effective_ttl. simpl.
  destruct (coopurl.TTL h =? 0); reflexivity.
Qed.

Lemma getPath_nonempty h : coopurl.getPath h <> "".
Proof.
  unfold coopurl.getPath.
  destruct (String.eqb_spec (coopurl.path h) ""); [discriminate | assumption].
Qed.

(** X14. A handler that [New] returns holds the store that
    [badger.Open] found at its path, a path that is never empty, and
    is not opened a second time: [init] returns it as it is. *)
Theorem New_ready opts h :
  coopurl.New opts = Ok h ->
  exists d,
    coopurl.db h = Some d
    /\ badger_Open (coopurl.getPath h) = Ok d
    /\ coopurl.getPath h <> ""
    /\ coopurl.init h = (None, h).
Proof.
  unfold coopurl.New, coopurl.open.
  set (h0 := fold_left (fun h opt => opt h) opts (coopurl.mkHandler None "" 0 0 "")).
  destruct (badger_Open (coopurl.getPath h0)) as [d|e] eqn:Hopen; [| discriminate].
  intros [= <-]. exists d. split; [reflexivity |]. split; [exact Hopen |].
  split; [apply getPath_nonempty | reflexivity].
Qed.

(** X15. The options of [New] are applied in order and each sets its
    own field: after [WithDbPath p], [WithDefaultTTL t] and
    [WithDefaultLength n] at the end of the list, in any order, the
    handler has path [p], TTL [t] and length [n]. *)
Theorem New_applies_options opts p t n last3 h :
  Permutation last3
    [coopurl.WithDbPath p; coopurl.WithDefaultTTL t; coopurl.WithDefaultLength n] ->
  coopurl.New (opts ++ last3) = Ok h ->
  coopurl.path h = p /\ coopurl.TTL h = t /\ coopurl.Length h = n.
Proof.
  intros Hperm. unfold coopurl.New, coopurl.open. rewrite fold_left_app.
  set (h0 := fold_left (fun h opt => opt h) opts (coopurl.mkHandler None "" 0 0 "")).
  assert (Hfields : forall h1,
            h1 = fold_left (fun h opt => opt h) last3 h0 ->
            coopurl.path h1 = p /\ coopurl.TTL h1 = t /\ coopurl.Length h1 = n).
  { intros h1 ->.
    symmetry in Hperm. apply permutations_Permutation in Hperm.
    cbn in Hperm.
    repeat (apply elem_of_cons in Hperm as [-> | Hperm];
            [repeat split; reflexivity |]).
    apply elem_of_nil in Hperm. contradiction. }
  destruct (badger_Open _) as [d|e]; [| discriminate].
  intros [= <-]. apply (Hfields _ eq_refl).
Qed.

End default_facts.

(** ** The redirect handler on any request *)

Section ServeHTTP_more.
Context `{Clock} `{Storage}.

Lemma ServeHTTP_with_store h d w r now :
  coopurl.db h = Some d ->
  coopurl.ServeHTTP h w r now
  = match coopurl.Get h (snd (path.Split (http.URL_Path r))) now with
    | (Panic m, h) => (Panic m, h)
    | (Ret (Err _), h) =>
        (Ret (http.WriteHeader http.StatusInternalServerError w), h)
    | (Ret (Ok u), h) =>
        match coopurl.redirect w r u with
        | (Some _, w) =>
            (Ret (http.WriteHeader http.StatusInternalServerError w), h)
        | (None, w) => (Ret w, h)
        end
    end.
Proof.
  intros Hdb. unfold coopurl.ServeHTTP, coopurl.init. rewrite Hdb.
  cbv beta iota. destruct (path.Split (http.URL_Path r)) as [dir id].
  reflexivity.
Qed.

Lemma WriteHeader_fresh code w :
  http.sent w = None -> http.status (http.WriteHeader code w) = Some code.
Proof. intros Hfresh. unfold http.status, http.WriteHeader. rewrite Hfresh. reflexivity. Qed.

(** X16. On a handler with a store, [ServeHTTP] answers every request
    on a fresh response, without panic, with status 301 or status 500,
    and leaves the handler and its store as they were. *)
Theorem ServeHTTP_answers h d w r now :
  coopurl.db h = Some d -> http.sent w = None ->
  exists w',
    coopurl.ServeHTTP h w r now = (Ret w', h)
    /\ (http.status w' = Some http.StatusMovedPermanently
        \/ http.status w' = Some http.StatusInternalServerError).
Proof.
  intros Hdb Hfresh. rewrite (ServeHTTP_with_store h d) by exact Hdb.
  destruct (Get_reads_only_lemma h d (snd (path.Split (http.URL_Path r))) now Hdb)
    as [[v|e] ->].
  - unfold coopurl.redirect. destruct (url.Parse v) as [u|e].
    + eexists. split; [reflexivity |]. left.
      apply (Redirect_sent w r _ _ Hfresh).
    + eexists. split; [reflexivity |]. right. apply WriteHeader_fresh, Hfresh.
  - eexists. split; [reflexivity |]. right. apply WriteHeader_fresh, Hfresh.
Qed.

Lemma ServeHTTP_entry h d w r now dir id e :
  coopurl.db h = Some d -> badger.closed d = false ->
  http.sent w = None ->
  http.URL_Path r = dir ++ "/" ++ id ->
  Strings.ContainsByte id "/" = false -> id <> "" ->
  badger.items d !! id = Some e -> badger.isExpired e now = false ->
  exists w',
    coopurl.ServeHTTP h w r now = (Ret w', h)
    /\ match url.Parse (badger.Value e) with
       | Ok u =>
           http.status w' = Some http.StatusMovedPermanently
           /\ http.sent_header "Location" w'
              = Some [http.hexEscapeNonASCII (http.absolute r (url.String u))]
       | Err _ => w' = http.WriteHeader http.StatusInternalServerError w
       end.
Proof.
  intros Hdb Hopen Hfresh Hpath Hseg Hid Hlook Hlive.
  rewrite (ServeHTTP_with_store h d) by exact Hdb.
  rewrite Hpath, (Split_last_segment dir id Hseg). simpl.
  rewrite (Get_open h d) by assumption.
  rewrite len_nonempty, Hlook, Hlive by exact Hid.
  unfold coopurl.redirect. destruct (url.Parse (badger.Value e)) as [u|err].
  - eexists. split; [reflexivity |]. apply (Redirect_sent w r _ _ Hfresh).
  - eexists. split; reflexivity.
Qed.


Lemma WriteHeader_twice code w :
  http.WriteHeader code (http.WriteHeader code w) = http.WriteHeader code w.
Proof. unfold http.WriteHeader. destruct (http.sent w) eqn:Hsent; simpl; rewrite ?Hsent; reflexivity. Qed.

(** X23. [ServeHTTP] on a handler without store.  It does not return
    after a failed [init]; [Get] then tries to open again.  When the
    store does not open, the answer is status 500 and nothing else (the
    second [WriteHeader] changes nothing) and the handler stays without
    store; when it opens, the request is served as on the opened
    handler. *)
Theorem ServeHTTP_lazy_open h w r now :
  coopurl.db h = None ->
  match badger_Open (coopurl.getPath h) with
  | Err _ =>
      coopurl.ServeHTTP h w r now
      = (Ret (http.WriteHeader http.StatusInternalServerError w), h)
  | Ok d =>
      coopurl.ServeHTTP h w r now
      = coopurl.ServeHTTP (coopurl.set_db (Some d) h) w r now
  end.
Proof.
  intros Hdb. destruct (badger_Open (coopurl.getPath h)) as [d|e] eqn:Hopen.
  - unfold coopurl.ServeHTTP, coopurl.Get, coopurl.init at 1, coopurl.open.
    rewrite Hdb, Hopen. reflexivity.
  - assert (Hinit : coopurl.init h = (Some e, h)).
    { unfold coopurl.init, coopurl.open. rewrite Hdb, Hopen.
      destruct h; simpl in *; subst; reflexivity. }
    unfold coopurl.ServeHTTP. rewrite Hinit.
    destruct (path.Split (http.URL_Path r)) as [dir id].
    unfold coopurl.Get. rewrite Hinit, WriteHeader_twice. reflexivity.
Qed.

End ServeHTTP_more.

(** ** What a sequence of calls keeps *)

Section run_facts.
Context `{Clock} `{Storage}.

Ltac split_ifs :=
  repeat match goal with
         | |- context [if ?b then _ else _] => destruct b
         | |- context [match ?o with Some _ => _ | None => _ end] => destruct o
         end.

(** [URL.String] begins with the scheme and a colon when there is a
    scheme. *)
Lemma String_starts_with_scheme u :
  url.Scheme u <> "" ->
  exists rest, url.String u = (url.Scheme u ++ ":" ++ rest)%string.
Proof.
  intros Hscheme. unfold url.String. cbv zeta.
  replace (url.nonempty (url.Scheme u)) with true
    by (unfold url.nonempty; destruct (String.eqb_spec (url.Scheme u) "");
        simpl; congruence).
  cbn [orb]. cbv iota.
  split_ifs; eexists; rewrite ?append_assoc; reflexivity.
Qed.

Lemma normalized_scheme u : url.Scheme (normalized u) <> "".
Proof.
  unfold normalized. destruct (String.eqb_spec (url.Scheme u) "");
    [discriminate | assumption].
Qed.

(** What one [Post] does to the store of a handler that has one. *)
Lemma Post_step h d s opts tgen tset :
  coopurl.db h = Some d ->
  exists d1,
    snd (coopurl.Post h s opts tgen tset) = coopurl.set_db (Some d1) h
    /\ badger.closed d1 = badger.closed d
    /\ (badger.items d1 = badger.items d
        \/ exists id e,
             posted_entry id e
             /\ badger.items d1 = <[id := e]> ∅ ∪ badger.items d).
Proof.
  intros Hdb. rewrite (Post_as_post h d) by exact Hdb. unfold coopurl.post.
  destruct (url.Parse s) as [u|e].
  2:{ exists d. rewrite (set_db_same h d Hdb). auto. }
  fold (normalized u). fold (request []).
  destruct (generateId_id (url.String (normalized u))
              (coopurl.getLength h (request [])) tgen (getLength_pos _ _))
    as (id & -> & Hlen & Hhex).
  pose proof (getLength_pos h (request [])) as Hpos.
  rewrite Hdb. unfold badger.Update.
  destruct (badger.closed d) eqn:Hclosed.
  { exists d. simpl. rewrite (set_db_same h d Hdb). auto. }
  rewrite write_as_SetEntry.
  destruct (badger.SetEntry _ _) as [txn|e] eqn:Hset.
  2:{ exists d. simpl. rewrite (set_db_same h d Hdb). auto. }
  apply SetEntry_Ok in Hset. subst txn. simpl. rewrite written_Key.
  eexists. split; [reflexivity |]. split; [reflexivity |]. right.
  eexists id, _. split; [| reflexivity].
  split; [lia |]. split; [exact Hhex |]. split; [apply written_Key |].
  rewrite written_Value.
  destruct (String_starts_with_scheme _ (normalized_scheme u)) as [rest Hrest].
  exists (url.Scheme (normalized u)), rest.
  split; [apply normalized_scheme | exact Hrest].
Qed.

Lemma step_store h d c :
  coopurl.db h = Some d ->
  exists d1,
    snd (coopurl.step h c) = coopurl.set_db (Some d1) h
    /\ badger.closed d1 = badger.closed d
    /\ (badger.items d1 = badger.items d
        \/ exists id e,
             posted_entry id e
             /\ badger.items d1 = <[id := e]> ∅ ∪ badger.items d).
Proof.
  intros Hdb. destruct c as [u opts tgen tset | id now]; simpl.
  - apply Post_step, Hdb.
  - destruct (Get_reads_only_lemma h d id now Hdb) as [r ->].
    exists d. simpl. rewrite (set_db_same h d Hdb). auto.
Qed.

Lemma run_cons h c cs :
  snd (coopurl.run h (c :: cs)) = snd (coopurl.run (snd (coopurl.step h c)) cs).
Proof.
  simpl. destruct (coopurl.step h c) as [o h1]. simpl.
  destruct (coopurl.run h1 cs) as [os h2]. reflexivity.
Qed.

(** The store after a sequence of calls: as open as before, every
    earlier key still there, every entry an earlier one or one that
    [Post] wrote. *)
Lemma run_store cs : forall h d,
  coopurl.db h = Some d ->
  exists d1,
    snd (coopurl.run h cs) = coopurl.set_db (Some d1) h
    /\ badger.closed d1 = badger.closed d
    /\ (forall k, is_Some (badger.items d !! k) -> is_Some (badger.items d1 !! k))
    /\ (forall k e, badger.items d1 !! k = Some e ->
          badger.items d !! k = Some e \/ posted_entry k e).
Proof.
  induction cs as [|c cs IH]; intros h d Hdb.
  - exists d. simpl. rewrite (set_db_same h d Hdb). auto.
  - rewrite run_cons.
    destruct (step_store h d c Hdb) as (d1 & -> & Hclosed1 & Hitems1).
    destruct (IH (coopurl.set_db (Some d1) h) d1 eq_refl)
      as (d2 & -> & Hclosed2 & Hkeep & Hnew).
    exists d2. split; [reflexivity |]. split; [congruence |].
    destruct Hitems1 as [Hsame | (id & e & Hentry & Hput)].
    + rewrite Hsame in *. split; assumption.
    + split.
      * intros k Hk. apply Hkeep. rewrite Hput.
        destruct (decide (id = k)) as [-> | Hne].
        -- rewrite lookup_committed. eauto.
        -- rewrite lookup_union_r; [exact Hk |].
           rewrite lookup_insert_ne by exact Hne. apply lookup_empty.
      * intros k e2 Hlook. destruct (Hnew k e2 Hlook) as [Hold | Hposted];
          [| right; exact Hposted].
        rewrite Hput in Hold.
        destruct (decide (id = k)) as [-> | Hne].
        -- rewrite lookup_committed in Hold. injection Hold as <-.
           right. exact Hentry.
        -- rewrite lookup_union_r in Hold; [left; exact Hold |].
           rewrite lookup_insert_ne by exact Hne. apply lookup_empty.
Qed.

(** X18. No sequence of [Post] and [Get] calls deletes a key, closes
    or reopens the store, or changes the handler's path, TTL, length
    or scheme: the handler differs from the first one by the store's
    new entries only. *)
Theorem run_never_deletes h d cs :
  coopurl.db h = Some d ->
  exists d1,
    snd (coopurl.run h cs) = coopurl.set_db (Some d1) h
    /\ badger.closed d1 = badger.closed d
    /\ forall k, is_Some (badger.items d !! k) -> is_Some (badger.items d1 !! k).
Proof.
  intros Hdb. destruct (run_store cs h d Hdb) as (d1 & Hrun & Hclosed & Hkeep & _).
  exists d1. auto.
Qed.


End run_facts.

(** ** The scheme of a stored link *)

Section scheme_facts.
Context `{Clock} `{Storage}.

Ltac by_bytes c :=
  destruct c as [[] [] [] [] [] [] [] []]; vm_compute; intros;
  first [reflexivity | discriminate].

Lemma alpha_scheme_byte c : url.is_alpha c = true -> scheme_byte c = true.
Proof. unfold scheme_byte. intros ->. reflexivity. Qed.

Lemma lower_alpha c : url.is_alpha c = true -> url.is_alpha (Strings.lower_byte c) = true.
Proof. by_bytes c. Qed.

Lemma lower_scheme_byte c :
  scheme_byte c = true -> scheme_byte (Strings.lower_byte c) = true.
Proof. by_bytes c. Qed.

Lemma scheme_byte_cases c :
  scheme_byte c = true ->
  url.is_alpha c = true
  \/ (url.is_alpha c = false
      /\ (url.is_digit c || url.one_of "+-." c) = true).
Proof.
  unfold scheme_byte. destruct (url.is_alpha c); [left; reflexivity |].
  intros Hc. right. split; [reflexivity | exact Hc].
Qed.

Lemma scheme_byte_not c sep :
  scheme_byte sep = false -> scheme_byte c = true -> Strings.eqb_byte c sep = false.
Proof.
  intros Hsep Hc. unfold Strings.eqb_byte.
  destruct (Ascii.eqb_spec c sep) as [-> |]; [congruence | reflexivity].
Qed.

Lemma ToLower_valid sch : valid_scheme sch = true -> valid_scheme (Strings.ToLower sch) = true.
Proof.
  destruct sch as [|c r]; [discriminate |]. simpl.
  intros [Hc Hr]%andb_prop. rewrite (lower_alpha c Hc). simpl.
  induction r as [|x r IH]; simpl in *; [reflexivity |].
  apply andb_prop in Hr as [Hx Hr]. rewrite (lower_scheme_byte x Hx). auto.
Qed.

Lemma valid_nonempty sch : valid_scheme sch = true -> sch <> "".
Proof. destruct sch; [discriminate | discriminate]. Qed.

Lemma valid_snoc pre c :
  valid_scheme pre = true -> scheme_byte c = true ->
  valid_scheme (pre ++ String c "") = true.
Proof.
  destruct pre as [|x r]; [discriminate |]. rewrite append_cons. simpl.
  intros [Hx Hr]%andb_prop Hc. rewrite Hx. simpl.
  induction r as [|y r IH]; simpl in *.
  - rewrite Hc. reflexivity.
  - apply andb_prop in Hr as [Hy Hr]. rewrite ?append_cons. simpl.
    rewrite Hy. auto.
Qed.

Lemma append_snoc pre c rest :
  ((pre ++ String c "") ++ rest)%string = (pre ++ String c rest)%string.
Proof. rewrite append_assoc. reflexivity. Qed.

Lemma append_nil_r (a : string) : (a ++ "")%string = a.
Proof. induction a as [|x a IH]; [reflexivity |]. rewrite append_cons, IH. reflexivity. Qed.

(** [getScheme] on a string that begins with a valid scheme and a
    colon: [pre] is what the loop has passed, [suf] what is left of the
    scheme. *)
Lemma getScheme_from_valid rest0 suf : forall pre,
  Strings.forall_bytes scheme_byte suf = true ->
  (pre = "" /\ valid_scheme suf = true) \/ valid_scheme pre = true ->
  url.getScheme_from (String.length pre) (suf ++ String ":" rest0)
    (pre ++ suf ++ String ":" rest0)
  = Ok ((pre ++ suf)%string, rest0).
Proof.
  induction suf as [|c r IH]; intros pre Hsuf Hpre.
  - destruct Hpre as [[_ Hbad] | Hpre]; [discriminate |].
    change ("" ++ String ":" rest0)%string with (String ":" rest0).
    rewrite append_nil_r. simpl.
    destruct pre as [|x pre']; [discriminate |].
    cbn [String.length]. do 2 f_equal.
    apply (take_app (String x pre') (String ":" rest0)).
  - simpl in Hsuf. apply andb_prop in Hsuf as [Hc Hr].
    rewrite append_cons. cbn [url.getScheme_from].
    assert (Hnext : url.getScheme_from (S (String.length pre)) (r ++ String ":" rest0)
                      (pre ++ String c (r ++ String ":" rest0))
                    = Ok ((pre ++ String c r)%string, rest0)).
    { rewrite <- (append_snoc pre c (r ++ String ":" rest0)), <- (append_snoc pre c r).
      replace (S (String.length pre)) with (String.length (pre ++ String c ""))
        by (rewrite append_length; simpl; lia).
      apply IH; [exact Hr |]. right.
      destruct Hpre as [[-> Hv] | Hpre].
      - simpl in *. apply andb_prop in Hv as [Hv _]. rewrite Hv. reflexivity.
      - apply valid_snoc; assumption. }
    destruct (scheme_byte_cases c Hc) as [Ha | [Ha Hd]].
    + rewrite Ha. exact Hnext.
    + rewrite Ha, Hd.
      destruct pre as [|x pre'].
      * destruct Hpre as [[_ Hv] | Hv]; [| discriminate].
        simpl in Hv. rewrite Ha in Hv. discriminate.
      * exact Hnext.
Qed.

(** The scheme that [getScheme] returns is empty or valid. *)
Lemma getScheme_from_result rest : forall pre sch r,
  pre = "" \/ valid_scheme pre = true ->
  url.getScheme_from (String.length pre) rest (pre ++ rest) = Ok (sch, r) ->
  sch = "" \/ valid_scheme sch = true.
Proof.
  induction rest as [|c rest IH]; intros pre sch r Hpre; simpl.
  - intros [= <- _]. left. reflexivity.
  - assert (Hnext : scheme_byte c = true ->
              url.getScheme_from (S (String.length pre)) rest (pre ++ String c rest)
              = Ok (sch, r) ->
              (pre = "" -> url.is_alpha c = true) ->
              sch = "" \/ valid_scheme sch = true).
    { intros Hc Hget Hfirst. rewrite <- (append_snoc pre c rest) in Hget.
      replace (S (String.length pre)) with (String.length (pre ++ String c "")) in Hget
        by (rewrite append_length; simpl; lia).
      apply IH in Hget; [exact Hget |]. right.
      destruct Hpre as [-> | Hpre].
      - simpl. rewrite (Hfirst eq_refl). reflexivity.
      - apply valid_snoc; assumption. }
    destruct (url.is_alpha c) eqn:Ha.
    { intros Hget. apply Hnext; [apply alpha_scheme_byte, Ha | exact Hget | auto]. }
    destruct (url.is_digit c || url.one_of "+-." c) eqn:Hd.
    { destruct pre as [|x pre'].
      - intros [= <- _]. left. reflexivity.
      - intros Hget. apply Hnext; [| exact Hget | discriminate].
        unfold scheme_byte. rewrite Ha. exact Hd. }
    destruct (Strings.eqb_byte c ":").
    { destruct pre as [|x pre']; [discriminate |].
      cbn [String.length]. intros [= <- _].
      change (S (String.length pre')) with (String.length (String x pre')).
      rewrite (take_app (String x pre') (String c rest)).
      destruct Hpre as [Hpre | Hpre]; [discriminate | right; exact Hpre]. }
    intros [= <- _]. left. reflexivity.
Qed.

Lemma getScheme_result raw sch r :
  url.getScheme raw = Ok (sch, r) -> sch = "" \/ valid_scheme sch = true.
Proof.
  unfold url.getScheme. apply (getScheme_from_result raw "" sch r). left. reflexivity.
Qed.

Lemma setPath_Scheme u p u' : url.setPath u p = Ok u' -> url.Scheme u' = url.Scheme u.
Proof.
  unfold url.setPath. destruct (url.unescape p url.encodePath); simpl;
    [intros [= <-]; reflexivity | discriminate].
Qed.

Lemma setFragment_Scheme u f u' :
  url.setFragment u f = Ok u' -> url.Scheme u' = url.Scheme u.
Proof.
  unfold url.setFragment. destruct (url.unescape f url.encodeFragment); simpl;
    [intros [= <-]; reflexivity | discriminate].
Qed.

(** Whatever [parse] returns carries the scheme of [getScheme] in
    lower case. *)
Lemma parse_Scheme raw sch rest p :
  String.eqb raw "*" = false ->
  url.getScheme raw = Ok (sch, rest) ->
  url.parse raw false = Ok p ->
  url.Scheme p = Strings.ToLower sch.
Proof.
  intros Hstar Hget. unfold url.parse. rewrite Hstar, Hget.
  rewrite andb_false_r. simpl.
  destruct (url.stringContainsCTLByte raw); [discriminate |].
  repeat match goal with
         | |- context [let '(_, _) := ?x in _] => destruct x
         | |- context [if ?b then _ else _] => destruct b
         | |- context [match ?o with Some _ => _ | None => _ end] => destruct o
         end;
    try discriminate;
    try (intros [= <-]; reflexivity);
    try (intros Hp; apply setPath_Scheme in Hp; exact Hp);
    try (destruct (url.parseAuthority _) as [[user host]|e]; simpl;
         [intros Hp; apply setPath_Scheme in Hp; exact Hp | discriminate]).
Qed.

Lemma valid_all sch :
  valid_scheme sch = true -> Strings.forall_bytes scheme_byte sch = true.
Proof.
  destruct sch as [|c r]; [discriminate |]. simpl.
  intros [Hc Hr]%andb_prop. rewrite (alpha_scheme_byte c Hc). exact Hr.
Qed.

(** [strings.Cut] leaves alone a prefix that is free of the separator. *)
Lemma Cut_keeps_prefix a b sep :
  Strings.forall_bytes (fun x => negb (Strings.eqb_byte x sep)) a = true ->
  exists b0, fst (fst (Strings.Cut (a ++ b) sep)) = (a ++ b0)%string.
Proof.
  induction a as [|x a IH]; intros Ha.
  - exists (fst (fst (Strings.Cut b sep))). reflexivity.
  - simpl in Ha. apply andb_prop in Ha as [Hx Ha].
    destruct (IH Ha) as [b0 Hb0]. exists b0.
    rewrite !append_cons. unfold Strings.Cut in *. simpl.
    apply negb_true_iff in Hx. rewrite Hx.
    destruct (Strings.IndexByte (a ++ b) sep) as [i|]; simpl in *.
    + unfold Strings.take in *. simpl. rewrite Hb0. reflexivity.
    + rewrite Hb0. reflexivity.
Qed.

Lemma scheme_bytes_free sch sep :
  scheme_byte sep = false ->
  Strings.forall_bytes scheme_byte sch = true ->
  Strings.forall_bytes (fun x => negb (Strings.eqb_byte x sep)) sch = true.
Proof.
  intros Hsep. induction sch as [|c r IH]; simpl; [reflexivity |].
  intros [Hc Hr]%andb_prop. rewrite (scheme_byte_not c sep Hsep Hc). auto.
Qed.

Lemma forall_bytes_app p a b :
  Strings.forall_bytes p (a ++ b)
  = Strings.forall_bytes p a && Strings.forall_bytes p b.
Proof.
  induction a as [|x a IH]; [reflexivity |].
  rewrite append_cons. simpl. rewrite IH. apply andb_assoc.
Qed.

(** A string that begins with a valid scheme and a colon parses, if it
    parses, to a URL with that scheme in lower case. *)
Lemma Parse_of_scheme sch rest p :
  valid_scheme sch = true ->
  url.Parse (sch ++ String ":" rest) = Ok p ->
  url.Scheme p = Strings.ToLower sch.
Proof.
  intros Hvalid. unfold url.Parse.
  destruct (Cut_keeps_prefix (sch ++ String ":" "") rest "#") as [rest1 Hb0].
  { rewrite forall_bytes_app.
    rewrite (scheme_bytes_free sch "#" eq_refl (valid_all sch Hvalid)).
    reflexivity. }
  rewrite !append_snoc in Hb0.
  destruct (Strings.Cut (sch ++ String ":" rest) "#") as [[raw frag] cut].
  simpl in Hb0. subst raw.
  assert (Hstar : String.eqb (sch ++ String ":" rest1) "*" = false).
  { destruct sch as [|c r]; [discriminate |]. rewrite append_cons. simpl.
    destruct r; rewrite ?append_cons; simpl; apply andb_false_r. }
  assert (Hget : url.getScheme (sch ++ String ":" rest1) = Ok (sch, rest1)).
  { unfold url.getScheme.
    apply (getScheme_from_valid rest1 sch ""); [apply valid_all, Hvalid |].
    left. split; [reflexivity | exact Hvalid]. }
  destruct (url.parse (sch ++ String ":" rest1) false) as [p0|e] eqn:Hp;
    [| discriminate].
  apply (parse_Scheme _ sch rest1 p0 Hstar Hget) in Hp.
  destruct (String.eqb frag "").
  - intros [= <-]. exact Hp.
  - destruct (url.setFragment p0 frag) as [p1|e] eqn:Hf; [| discriminate].
    intros [= <-]. rewrite (setFragment_Scheme _ _ _ Hf). exact Hp.
Qed.

(** The scheme of whatever [url.Parse] returns is empty or valid. *)
Lemma Parse_Scheme_valid s u :
  url.Parse s = Ok u ->
  url.Scheme u = "" \/ valid_scheme (url.Scheme u) = true.
Proof.
  unfold url.Parse. destruct (Strings.Cut s "#") as [[raw frag] cut].
  destruct (url.parse raw false) as [p0|e] eqn:Hp; [| discriminate].
  assert (Hp0 : url.Scheme p0 = "" \/ valid_scheme (url.Scheme p0) = true).
  { destruct (String.eqb raw "*") eqn:Hstar.
    - unfold url.parse in Hp. rewrite Hstar, andb_false_r in Hp.
      destruct (url.stringContainsCTLByte raw); [discriminate |].
      injection Hp as <-. left. reflexivity.
    - destruct (url.getScheme raw) as [[sch rest]|e] eqn:Hget.
      + rewrite (parse_Scheme raw sch rest p0 Hstar Hget Hp).
        destruct (getScheme_result raw sch rest Hget) as [-> | Hv];
          [left; reflexivity | right; apply ToLower_valid, Hv].
      + unfold url.parse in Hp. rewrite Hstar, Hget, andb_false_r in Hp.
        destruct (url.stringContainsCTLByte raw); discriminate. }
  destruct (String.eqb frag "").
  - intros [= <-]. exact Hp0.
  - destruct (url.setFragment p0 frag) as [p1|e] eqn:Hf; [| discriminate].
    intros [= <-]. rewrite (setFragment_Scheme _ _ _ Hf). exact Hp0.
Qed.

Lemma normalized_valid s u :
  url.Parse s = Ok u -> valid_scheme (url.Scheme (normalized u)) = true.
Proof.
  intros Hparse. unfold normalized.
  destruct (String.eqb_spec (url.Scheme u) "") as [Hempty | Hne]; [reflexivity |].
  destruct (Parse_Scheme_valid s u Hparse); [contradiction | assumption].
Qed.

(** [http.Redirect] leaves alone a target that was rendered from a URL
    with a scheme: it is not resolved against the request path. *)
Lemma absolute_rendered r p :
  valid_scheme (url.Scheme p) = true ->
  http.absolute r (url.String p) = url.String p.
Proof.
  intros Hvalid. unfold http.absolute.
  destruct (url.Parse (url.String p)) as [p'|e] eqn:Hre; [| reflexivity].
  destruct (String_starts_with_scheme p (valid_nonempty _ Hvalid)) as [rest Hrest].
  rewrite Hrest in Hre.
  change (":" ++ rest)%string with (String ":" rest) in Hre.
  apply (Parse_of_scheme _ _ _ Hvalid) in Hre.
  pose proof (valid_nonempty _ (ToLower_valid _ Hvalid)) as Hne.
  rewrite <- Hre in Hne.
  destruct (String.eqb_spec (url.Scheme p') ""); [contradiction | reflexivity].
Qed.

Lemma hex_no_slash id :
  Strings.forall_bytes is_lower_hex id = true -> Strings.ContainsByte id "/" = false.
Proof.
  unfold Strings.ContainsByte. induction id as [|c r IH]; [reflexivity |].
  simpl. intros [Hc Hr]%andb_prop.
  replace (Strings.eqb_byte c "/") with false.
  - destruct (Strings.IndexByte r "/"); [discriminate (IH Hr) | reflexivity].
  - symmetry. unfold Strings.eqb_byte.
    destruct (Ascii.eqb_spec c "/") as [-> |]; [discriminate Hc | reflexivity].
Qed.

(** X20. A link that [Post] accepted, on a handler without TTL, is
    redirected to the stored URL itself: for a request to [dir/id] on a
    fresh response, [ServeHTTP] answers 301 with the rendering of the
    stored value as [Location], never a path below the request's; or
    500 should the stored value not parse. *)
Theorem posted_link_redirects_absolute h s opts tgen tset id h1 w r now dir :
  coopurl.Post h s opts tgen tset = (Ret (Ok id), h1) ->
  coopurl.TTL h = 0 ->
  http.sent w = None ->
  http.URL_Path r = dir ++ "/" ++ id ->
  exists u w',
    url.Parse s = Ok u
    /\ coopurl.ServeHTTP h1 w r now = (Ret w', h1)
    /\ match url.Parse (url.String (normalized u)) with
       | Ok p =>
           http.status w' = Some http.StatusMovedPermanently
           /\ http.sent_header "Location" w'
              = Some [http.hexEscapeNonASCII (url.String p)]
       | Err _ => http.status w' = Some http.StatusInternalServerError
       end.
Proof.
  intros HPost Httl Hfresh Hpath. unfold coopurl.Post in HPost.
  destruct (init_cases h) as [(d0 & Hinit) | (e & Hinit)];
    rewrite Hinit in HPost; [| discriminate].
  apply post_inv in HPost.
  destruct HPost as (u & d & Hparse & Hdb & Hopen & Hgen & ->).
  exists u.
  pose proof (getLength_pos (coopurl.set_db (Some d0) h) (request [])) as Hpos.
  destruct (generateId_id (url.String (normalized u)) _ tgen Hpos)
    as (id' & Hgen' & Hlen & Hhex).
  rewrite Hgen in Hgen'. injection Hgen' as <-.
  set (e := written id (url.String (normalized u))
              (effective_ttl (coopurl.set_db (Some d0) h) (request [])) tset).
  set (d1 := badger.mkDB false (<[id := e]> ∅ ∪ badger.items d)).
  destruct (ServeHTTP_entry (coopurl.set_db (Some d1) (coopurl.set_db (Some d0) h))
              d1 w r now dir id e) as (w' & Hserve & Hanswer);
    [reflexivity | reflexivity | exact Hfresh | exact Hpath
    | apply hex_no_slash, Hhex
    | apply nonempty_of_length; lia
    | apply lookup_committed
    | apply written_live; left; exact Httl
    |].
  exists w'. split; [exact Hparse |]. split; [exact Hserve |].
  unfold e in Hanswer. rewrite written_Value in Hanswer.
  destruct (url.Parse (url.String (normalized u))) as [p|err] eqn:Hre.
  - destruct Hanswer as [Hstatus Hloc]. split; [exact Hstatus |].
    rewrite Hloc, absolute_rendered; [reflexivity |].
    destruct (String_starts_with_scheme _ (normalized_scheme u)) as [rest Hrest].
    rewrite Hrest in Hre.
    change (":" ++ rest)%string with (String ":" rest) in Hre.
    rewrite (Parse_of_scheme _ _ _ (normalized_valid s u Hparse) Hre).
    apply ToLower_valid, (normalized_valid s u Hparse).
  - rewrite Hanswer. apply WriteHeader_fresh, Hfresh.
Qed.

End scheme_facts.

(** ** The submission form *)

Section main_facts.
Context `{Clock} `{Storage} `{main.Templates}.

Lemma hex_not_escaped c :
  is_lower_hex c = true -> url.shouldEscape c url.encodePath = false.
Proof.
  destruct c as [[] [] [] [] [] [] [] []]; vm_compute; intros;
    first [reflexivity | discriminate].
Qed.

Lemma hex_not_space c : is_lower_hex c = true -> Strings.eqb_byte c " " = false.
Proof.
  destruct c as [[] [] [] [] [] [] [] []]; vm_compute; intros;
    first [reflexivity | discriminate].
Qed.

Lemma escape_hex id :
  Strings.forall_bytes is_lower_hex id = true -> url.escape id url.encodePath = id.
Proof.
  induction id as [|c r IH]; [reflexivity |]. simpl.
  intros [Hc Hr]%andb_prop.
  rewrite (hex_not_space c Hc), (hex_not_escaped c Hc), (IH Hr). reflexivity.
Qed.

Lemma slash_escaped_in_host : url.shouldEscape "/" url.encodeHost = true.
Proof. reflexivity. Qed.

Lemma in_slash c : Strings.ContainsByte "/" c = Strings.eqb_byte "/" c.
Proof.
  unfold Strings.ContainsByte. cbn [Strings.IndexByte].
  destruct (Strings.eqb_byte "/" c); reflexivity.
Qed.

(** The rendering of a host never begins with a slash. *)
Lemma TrimLeft_host host rest :
  host <> "" ->
  main.TrimLeft (url.escape host url.encodeHost ++ rest) "/"
  = (url.escape host url.encodeHost ++ rest)%string.
Proof.
  destruct host as [|c r]; [congruence |]. intros _. simpl.
  rewrite andb_false_r.
  destruct (url.shouldEscape c url.encodeHost) eqn:Hc.
  - rewrite append_cons. reflexivity.
  - rewrite append_cons. cbn [main.TrimLeft]. rewrite in_slash.
    replace (Strings.eqb_byte "/" c) with false; [reflexivity |].
    symmetry. unfold Strings.eqb_byte.
    destruct (Ascii.eqb_spec "/" c) as [<- |]; [| reflexivity].
    rewrite slash_escaped_in_host in Hc. discriminate.
Qed.

(** The short URL that the page shows: the host as [URL.String]
    renders it, [/r/] and the id; without host, [r/] and the id. *)
Lemma short_URL host id :
  Strings.forall_bytes is_lower_hex id = true ->
  main.TrimLeft
    (url.String (url.mkURL "" "" None host ("r/" ++ id) "" false false "" "" "")) "/"
  = ((if String.eqb host "" then ""
      else url.escape host url.encodeHost ++ "/") ++ "r/" ++ id)%string.
Proof.
  intros Hhex. unfold url.String, url.EscapedPath. cbn [url.Scheme url.Opaque
    url.User url.Host url.Path url.RawPath url.OmitHost url.ForceQuery
    url.RawQuery url.Fragment url.RawFragment].
  change (url.escape ("r/" ++ id) url.encodePath)
    with (String "r" (String "/" (url.escape id url.encodePath))).
  rewrite (escape_hex id Hhex).
  destruct (String.eqb_spec host "") as [-> | Hhost].
  - reflexivity.
  - unfold url.nonempty.
    destruct (String.eqb_spec host ""); [contradiction |].
    cbn -[url.escape main.TrimLeft String.append].
    change (("" ++ "//") ++ url.escape host url.encodeHost)%string
      with (String "/" (String "/" (url.escape host url.encodeHost))).
    rewrite !append_cons.
    replace (String.eqb (String "/" (String "/" (url.escape host url.encodeHost ++ "/"))) "")
      with false by reflexivity.
    cbn -[url.escape main.TrimLeft String.append].
    rewrite !append_cons. cbn [main.TrimLeft].
    change (Strings.ContainsByte "/" "/") with true. cbv iota.
    rewrite append_assoc, TrimLeft_host by exact Hhost.
    rewrite append_assoc. reflexivity.
Qed.

Lemma execute_status out w :
  http.sent w = None ->
  http.status (main.execute out w) = None
  \/ http.status (main.execute out w) = Some http.StatusOK.
Proof.
  intros Hfresh. unfold main.execute. destruct (String.eqb out "").
  - left. unfold http.status. rewrite Hfresh. reflexivity.
  - right. unfold http.status, http.Write, http.WriteHeader.
    rewrite Hfresh. reflexivity.
Qed.

(** X21. When the form holds a URL that [Post] accepts, [ServeShort]
    stores the link and executes the page template on the very data of
    that link: the submitted string, the value stored under the new
    id, and as short URL the request's host, [/r/] and the id, the
    address that [ServeHTTP] resolves. *)
Theorem ServeShort_shows_stored_link h d w r u us tgen tset p tmpl :
  coopurl.db h = Some d -> badger.closed d = false ->
  main.ParseForm r = None ->
  main.Form r !! "u" = Some (u :: us) ->
  url.Parse u = Ok p ->
  badger.len (url.String (normalized p)) <= badger.ValueLogFileSize ->
  main.ParseFiles ["templates/layout.html"; "templates/short.html"] = Ok tmpl ->
  exists id d1 e,
    badger.items d1 !! id = Some e
    /\ main.ServeShort h w r tgen tset
       = (Ret (main.execute
                 (tmpl "layout"
                    (main.mkShortData
                       ((if String.eqb (main.Host r) "" then ""
                         else url.escape (main.Host r) url.encodeHost ++ "/")
                        ++ "r/" ++ id)
                       u (badger.Value e))) w),
          coopurl.set_db (Some d1) h).
Proof.
  intros Hdb Hopen Hform Hu Hparse Hfit Htmpl.
  destruct (post_ok h d u [] tgen tset p Hdb Hopen Hparse Hfit)
    as (id & _ & _ & Hhex & Hpost).
  rewrite <- (Post_as_post h d u [] tgen tset Hdb) in Hpost.
  exists id,
    (badger.mkDB false
       (<[id := written id (url.String (normalized p))
                  (effective_ttl h (request [])) tset]> ∅ ∪ badger.items d)),
    (written id (url.String (normalized p)) (effective_ttl h (request [])) tset).
  split; [apply lookup_committed |].
  unfold main.ServeShort. rewrite Hform, Hu, Hpost, Hparse, Htmpl.
  cbv zeta. rewrite (short_URL _ id Hhex), written_Value. reflexivity.
Qed.

(** X22. [ServeShort] answers with an error status only when nothing
    was stored: if the response on a fresh writer carries status 400 or
    500, the handler and its store are as they were. *)
Theorem ServeShort_error_stores_nothing h d w r tgen tset w' h1 :
  coopurl.db h = Some d -> http.sent w = None ->
  main.ServeShort h w r tgen tset = (Ret w', h1) ->
  http.status w' = Some main.StatusBadRequest
  \/ http.status w' = Some http.StatusInternalServerError ->
  h1 = h.
Proof.
  intros Hdb Hfresh. unfold main.ServeShort.
  destruct (main.ParseForm r); [intros [= _ <-]; reflexivity |].
  destruct (main.Form r !! "u") as [[|u us]|];
    try (intros [= _ <-]; reflexivity).
  destruct (coopurl.Post h u [] tgen tset) as [[[id|e]|m] h2] eqn:HPost.
  - pose proof HPost as Hinv.
    rewrite (Post_as_post h d) in Hinv by exact Hdb.
    apply post_inv in Hinv. destruct Hinv as (p & _ & -> & _).
    destruct (main.ParseFiles _) as [tmpl|e]; [| discriminate].
    intros [= <- _] Hstatus.
    destruct (execute_status
                (tmpl "layout"
                   (main.mkShortData
                      (main.TrimLeft
                         (url.String
                            (url.mkURL "" "" None (main.Host r) ("r/" ++ id) ""
                               false false "" "" "")) "/")
                      u
                      (url.String
                         (if String.eqb (url.Scheme p) ""
                          then url.set_Scheme "http" p else p)))) w Hfresh)
      as [Hnone | Hok]; rewrite ?Hnone, ?Hok in Hstatus;
      destruct Hstatus; discriminate.
  - intros [= _ <-] _. apply (Post_failure h d u [] tgen tset e h2 Hdb HPost).
  - discriminate.
Qed.

(** X24. [ServeShort] answers 400 exactly when the form parsed and
    holds no value for [u]: a URL that does not parse, a store that
    fails and a form that does not parse are all reported as 500, and a
    page that was rendered never carries 400. *)
Theorem ServeShort_bad_request h w r tgen tset w' h1 :
  http.sent w = None ->
  main.ServeShort h w r tgen tset = (Ret w', h1) ->
  http.status w' = Some main.StatusBadRequest
  <-> main.ParseForm r = None
      /\ (main.Form r !! "u" = None \/ main.Form r !! "u" = Some []).
Proof.
  intros Hfresh. unfold main.ServeShort.
  assert (Hno : forall A (x : A) (us : list A), ~ (Some (x :: us) = None \/ Some (x :: us) = Some []))
    by (intros A x us [Hc | Hc]; discriminate).
  destruct (main.ParseForm r) as [e|].
  { intros [= <- _]. rewrite (WriteHeader_fresh _ _ Hfresh).
    split; [discriminate | intros [Hc _]; discriminate]. }
  destruct (main.Form r !! "u") as [[|u us]|].
  - intros [= <- _]. rewrite (WriteHeader_fresh _ _ Hfresh). split; auto.
  - destruct (coopurl.Post h u [] tgen tset) as [[[id|e]|m] h2]; [| | discriminate].
    + destruct (url.Parse u) as [p|e].
      * destruct (main.ParseFiles _) as [tmpl|e]; [| discriminate].
        intros [= <- _]. split.
        -- intros Hstatus.
           match type of Hstatus with
           | http.status (main.execute ?out w) = _ =>
               destruct (execute_status out w Hfresh) as [Hnone | Hok];
                 rewrite ?Hnone, ?Hok in Hstatus; discriminate
           end.
        -- intros [_ Hc]. destruct (Hno _ _ _ Hc).
      * intros [= <- _]. rewrite (WriteHeader_fresh _ _ Hfresh).
        split; [discriminate | intros [_ Hc]; destruct (Hno _ _ _ Hc)].
    + intros [= <- _]. rewrite (WriteHeader_fresh _ _ Hfresh).
      split; [discriminate | intros [_ Hc]; destruct (Hno _ _ _ Hc)].
  - intros [= <- _]. rewrite (WriteHeader_fresh _ _ Hfresh). split; auto.
Qed.

(** X25. The link is stored before the page templates are parsed: when
    [template.ParseFiles] fails, [template.Must] panics, and the link
    of an accepted submission is in the store all the same. *)
Theorem ServeShort_template_failure h d w r u us tgen tset p err :
  coopurl.db h = Some d -> badger.closed d = false ->
  main.ParseForm r = None ->
  main.Form r !! "u" = Some (u :: us) ->
  url.Parse u = Ok p ->
  badger.len (url.String (normalized p)) <= badger.ValueLogFileSize ->
  main.ParseFiles ["templates/layout.html"; "templates/short.html"] = Err err ->
  exists id d1 e m,
    main.ServeShort h w r tgen tset = (Panic m, coopurl.set_db (Some d1) h)
    /\ badger.items d1 !! id = Some e
    /\ badger.Value e = url.String (normalized p).
Proof.
  intros Hdb Hopen Hform Hu Hparse Hfit Htmpl.
  destruct (post_ok h d u [] tgen tset p Hdb Hopen Hparse Hfit)
    as (id & _ & _ & Hhex & Hpost).
  rewrite <- (Post_as_post h d u [] tgen tset Hdb) in Hpost.
  exists id,
    (badger.mkDB false
       (<[id := written id (url.String (normalized p))
                  (effective_ttl h (request [])) tset]> ∅ ∪ badger.items d)),
    (written id (url.String (normalized p)) (effective_ttl h (request [])) tset).
  eexists. split; [| split; [apply lookup_committed | apply written_Value]].
  unfold main.ServeShort. rewrite Hform, Hu, Hpost, Hparse, Htmpl. reflexivity.
Qed.

End main_facts.

(** ** The code at work in the example environment *)

Import Example.

Example New_fresh : coopurl.New [] = Ok fresh.
Proof. reflexivity. Qed.

Example Post_example_com :
  coopurl.Post fresh "example.com" [] t0 t0
  = (Ret (Ok "c43d99a9"), posted).
Proof. computed. Qed.

Example post_with_length_3 :
  fst (coopurl.post fresh "http://example.com" [coopurl.WithLength 3]
         t0 t0)
  = Ret (Ok "c43").
Proof. computed. Qed.

Example Post_ignores_length_3 :
  fst (coopurl.Post fresh "http://example.com" [coopurl.WithLength 3]
         t0 t0)
  = Ret (Ok "c43d99a9").
Proof. computed. Qed.

(** A link posted with a default TTL of one second is found within the
    second and gone after it. *)
Example Get_before_and_after_expiry :
  let h := coopurl.WithDefaultTTL 1000000000 fresh in
  let '(_, h1) := coopurl.Post h "example.com" [] t0 t0 in
  fst (coopurl.Get h1 "c43d99a9" t0) = Ret (Ok "http://example.com")
  /\ fst (coopurl.Get h1 "c43d99a9" (t0 + 1)) = Ret (Err ErrKeyNotFound)
  /\ fst (coopurl.Get h1 "c43d99a9" t1) = Ret (Err ErrKeyNotFound).
Proof. vm_compute. repeat split; reflexivity. Qed.

Example generateId_negative :
  coopurl.generateId "http://example.com" (-1) t0
  = Panic "slice bounds out of range".
Proof. computed. Qed.

(** C4 at work. *)
Lemma generateId_refines_spec_witness :
  0 <= 8
  /\ coopurl.generateId "http://example.com" 8 t0 = Ret "c43d99a9".
Proof.
  split; [lia |].
  destruct (generateId_refines_spec "http://example.com" t0 8) as [-> _];
    [lia |].
  vm_compute. reflexivity.
Defined.

(** C5 at work. *)
Lemma Post_defaults_scheme_witness :
  url.Parse "example.com" = Ok bare_example_com
  /\ url.Scheme bare_example_com = ""
  /\ exists id d' e,
       coopurl.Post fresh "example.com" [] t0 t0
       = (Ret (Ok id), coopurl.set_db (Some d') fresh)
       /\ badger.items d' !! id = Some e
       /\ badger.Value e = "http://example.com".
Proof.
  split; [vm_compute; reflexivity |]. split; [reflexivity |].
  destruct (Post_defaults_scheme fresh (badger.mkDB false ∅) "example.com" []
              t0 t0 bare_example_com)
    as (id & d' & e & HPost & Hlook & _ & _ & Hval).
  - reflexivity.
  - reflexivity.
  - vm_compute. reflexivity.
  - reflexivity.
  - vm_compute. discriminate.
  - exists id, d', e. split; [exact HPost |]. split; [exact Hlook |].
    apply Hval. reflexivity.
Defined.

(** C3, as amended, at work. *)
Lemma Get_after_Post_witness :
  coopurl.Post fresh "example.com" [] t0 t0 = (Ret (Ok "c43d99a9"), posted)
  /\ exists u,
       url.Parse "example.com" = Ok u
       /\ coopurl.Get posted "c43d99a9" t1
          = (Ret (Ok (url.String (normalized u))), posted).
Proof.
  split; [vm_compute; reflexivity |].
  apply (Get_after_Post fresh "example.com" [] t0 t0 t1 "c43d99a9" posted).
  - vm_compute. reflexivity.
  - left. reflexivity.
Defined.

(** C3 as worded fails: [Post("HTTP://example.com")] is accepted, the
    string has a scheme, and [Get] returns [http://example.com], the
    scheme in lower case. *)
Lemma Get_Post_changes_input :
  ~ @Get_Post_returns_input Example.clock Example.storage.
Proof.
  intros Hclaim.
  assert (Hget : fst (coopurl.Get posted "c43d99a9" t1)
                 = Ret (Ok "HTTP://example.com")).
  { apply (Hclaim fresh "HTTP://example.com" [] t0 t0 t1 "c43d99a9" posted
             example_com).
    - vm_compute. reflexivity.
    - reflexivity.
    - vm_compute. reflexivity. }
  vm_compute in Hget. discriminate Hget.
Qed.

(** C6, as amended, at work. *)
Lemma Get_missing_key_witness :
  "0badc0de" <> ""
  /\ badger.items one_link !! "0badc0de" = None
  /\ coopurl.Get posted "0badc0de" t1 = (Ret (Err ErrKeyNotFound), posted).
Proof.
  split; [discriminate |]. split; [vm_compute; reflexivity |].
  apply (Get_missing_key posted one_link "0badc0de" t1).
  - reflexivity.
  - reflexivity.
  - discriminate.
  - left. vm_compute. reflexivity.
Defined.

(** C6 as worded fails on the empty id: it is no key of the empty
    store, and [Get] answers with the empty-key error. *)
Lemma Get_empty_id_not_found :
  ~ @Get_missing_is_not_found Example.clock Example.storage.
Proof.
  intros Hclaim.
  pose proof (Hclaim fresh (badger.mkDB false ∅) "" t1
                eq_refl eq_refl eq_refl) as Hget.
  vm_compute in Hget. discriminate Hget.
Qed.

(** C10 at work: a string that does not parse leaves the stored entry
    alone. *)
Lemma Post_parse_error_keeps_store_witness :
  url.Parse ":foo"
  = Err (url_Error "parse" ":foo" (errorString "missing protocol scheme"))
  /\ coopurl.Post posted ":foo" [] t1 t1
     = (Ret (Err (url_Error "parse" ":foo" (errorString "missing protocol scheme"))),
        posted).
Proof.
  split; [vm_compute; reflexivity |].
  apply (Post_parse_error_keeps_store posted one_link ":foo" [] t1 t1).
  - reflexivity.
  - vm_compute. reflexivity.
Defined.

(** C7 at work: [GET /r/c43d99a9] is redirected, [GET /r/unknown] is
    not. *)
Lemma ServeHTTP_redirects_witness :
  (exists w',
     coopurl.ServeHTTP posted http.NewRecorder
       (http.mkRequest "GET" "/r/c43d99a9") t1 = (Ret w', posted)
     /\ http.status w' = Some 301
     /\ http.sent_header "Location" w' = Some ["http://example.com"])
  /\ (exists w',
        coopurl.ServeHTTP posted http.NewRecorder
          (http.mkRequest "GET" "/r/unknown") t1 = (Ret w', posted)
        /\ http.status w' = Some 500).
Proof.
  split.
  - destruct (ServeHTTP_redirects posted one_link http.NewRecorder
                (http.mkRequest "GET" "/r/c43d99a9") t1 "c43d99a9")
      as [Hstored _].
    + reflexivity.
    + reflexivity.
    + reflexivity.
    + vm_compute. reflexivity.
    + apply (Hstored (badger.mkEntry "c43d99a9" "http://example.com" 0)).
      * discriminate.
      * vm_compute. reflexivity.
      * reflexivity.
      * reflexivity.
  - destruct (ServeHTTP_redirects posted one_link http.NewRecorder
                (http.mkRequest "GET" "/r/unknown") t1 "unknown")
      as [_ Hmissing].
    + reflexivity.
    + reflexivity.
    + reflexivity.
    + vm_compute. reflexivity.
    + apply Hmissing. left. vm_compute. reflexivity.
Defined.

(** ** The further properties at work *)

(** X1 at work. *)
Lemma post_length_from_option_witness :
  1 <= 3
  /\ exists id h',
       coopurl.post fresh "example.com"
         ([coopurl.WithTTL 5] ++ [coopurl.WithLength 3]) t0 t0 = (Ret (Ok id), h')
       /\ String.length id = Z.to_nat (Z.min 3 64)
       /\ Strings.forall_bytes is_lower_hex id = true.
Proof.
  split; [lia |].
  apply (post_length_from_option fresh (badger.mkDB false ∅) "example.com"
           [coopurl.WithTTL 5] 3 t0 t0 bare_example_com).
  - reflexivity.
  - reflexivity.
  - vm_compute. reflexivity.
  - vm_compute. discriminate.
  - lia.
Defined.

(** X2 at work. *)
Lemma post_ttl_from_option_witness :
  1000000000 <> 0
  /\ exists id d' e,
       coopurl.post fresh "example.com"
         ([coopurl.WithLength 3] ++ [coopurl.WithTTL 1000000000]) t0 t0
       = (Ret (Ok id), coopurl.set_db (Some d') fresh)
       /\ badger.items d' !! id = Some e
       /\ badger.Value e = url.String (normalized bare_example_com)
       /\ badger.ExpiresAt e = time_Unix (time_Add t0 1000000000) mod 2 ^ 64.
Proof.
  split; [discriminate |].
  apply (post_ttl_from_option fresh (badger.mkDB false ∅) "example.com"
           [coopurl.WithLength 3] 1000000000 t0 t0 bare_example_com).
  - reflexivity.
  - reflexivity.
  - vm_compute. reflexivity.
  - vm_compute. discriminate.
  - discriminate.
Defined.

(** X3 at work. *)
Lemma post_ignores_unset_options_witness :
  -5 <= 0
  /\ coopurl.post fresh "example.com" [coopurl.WithLength (-5); coopurl.WithTTL 0] t0 t0
     = coopurl.post fresh "example.com" [] t0 t0.
Proof.
  split; [lia |]. apply (post_ignores_unset_options fresh "example.com" (-5) t0 t0). lia.
Defined.

(** X4 at work: a second link leaves the first alone. *)
Lemma Post_writes_one_key_witness :
  coopurl.Post posted "example.org" [] t1 t1
  = (Ret (Ok "1cedafbc"), snd (coopurl.Post posted "example.org" [] t1 t1))
  /\ exists d1,
       snd (coopurl.Post posted "example.org" [] t1 t1) = coopurl.set_db (Some d1) posted
       /\ badger.closed d1 = badger.closed one_link
       /\ is_Some (badger.items d1 !! "1cedafbc")
       /\ forall k, k <> "1cedafbc" ->
            badger.items d1 !! k = badger.items one_link !! k.
Proof.
  split; [vm_compute; reflexivity |].
  apply (Post_writes_one_key posted one_link "example.org" [] t1 t1 "1cedafbc").
  - reflexivity.
  - vm_compute. reflexivity.
Defined.

(** X5 at work. *)
Lemma Post_failure_writes_nothing_witness :
  coopurl.Post posted ":foo" [] t1 t1
  = (Ret (Err (url_Error "parse" ":foo" (errorString "missing protocol scheme"))),
     snd (coopurl.Post posted ":foo" [] t1 t1))
  /\ snd (coopurl.Post posted ":foo" [] t1 t1) = posted.
Proof.
  split; [vm_compute; reflexivity |].
  apply (Post_failure_writes_nothing posted one_link ":foo" [] t1 t1
           (url_Error "parse" ":foo" (errorString "missing protocol scheme"))).
  - reflexivity.
  - vm_compute. reflexivity.
Defined.

(** X6 at work. *)
Lemma Get_reads_only_witness :
  coopurl.db posted = Some one_link
  /\ exists r, coopurl.Get posted "c43d99a9" t1 = (Ret r, posted).
Proof.
  split; [reflexivity |].
  apply (Get_reads_only posted one_link "c43d99a9" t1). reflexivity.
Defined.

(** X7 at work, on the broken disk. *)
Lemma lazy_open_failure_witness :
  @coopurl.Get Example.clock broken_disk unopened "c43d99a9" t1
  = (Ret (Err (ErrOpen "Cannot acquire directory lock")), unopened)
  /\ @coopurl.Post Example.clock broken_disk unopened "example.com" [] t0 t0
     = (Ret (Err (ErrOpen "Cannot acquire directory lock")), unopened).
Proof.
  apply (@lazy_open_failure Example.clock broken_disk unopened "c43d99a9"
           "example.com" [] t1 t0 t0 (ErrOpen "Cannot acquire directory lock")).
  - reflexivity.
  - reflexivity.
Defined.

(** X8 at work. *)
Lemma lazy_open_success_witness :
  coopurl.Get unopened "c43d99a9" t1
  = coopurl.Get (coopurl.set_db (Some (badger.mkDB false ∅)) unopened) "c43d99a9" t1
  /\ coopurl.Post unopened "example.com" [] t0 t0
     = coopurl.Post (coopurl.set_db (Some (badger.mkDB false ∅)) unopened)
         "example.com" [] t0 t0.
Proof.
  apply (lazy_open_success unopened "c43d99a9" "example.com" [] t1 t0 t0
           (badger.mkDB false ∅)).
  - reflexivity.
  - reflexivity.
Defined.

(** X9 at work: a link that lives one second, read a minute later. *)
Lemma Get_of_posted_witness :
  coopurl.Post short_lived "example.com" [] t0 t0
  = (Ret (Ok "c43d99a90c58"), snd (coopurl.Post short_lived "example.com" [] t0 t0))
  /\ fst (coopurl.Get (snd (coopurl.Post short_lived "example.com" [] t0 t0))
            "c43d99a90c58" t0)
     = Ret (Ok "http://example.com")
  /\ fst (coopurl.Get (snd (coopurl.Post short_lived "example.com" [] t0 t0))
            "c43d99a90c58" t1)
     = Ret (Err ErrKeyNotFound).
Proof.
  split; [vm_compute; reflexivity |]. split.
  - destruct (Get_of_posted short_lived "example.com" [] t0 t0 t0 "c43d99a90c58"
                (snd (coopurl.Post short_lived "example.com" [] t0 t0)))
      as (u & Hu & ->); [vm_compute; reflexivity |].
    vm_compute in Hu. injection Hu as <-. vm_compute. reflexivity.
  - destruct (Get_of_posted short_lived "example.com" [] t0 t0 t1 "c43d99a90c58"
                (snd (coopurl.Post short_lived "example.com" [] t0 t0)))
      as (u & Hu & ->); [vm_compute; reflexivity |].
    vm_compute. reflexivity.
Defined.


(** X12 at work. *)
Lemma generateId_shorter_is_prefix_witness :
  0 <= 4 <= 8
  /\ exists a b,
       coopurl.generateId "http://example.com" 4 t0 = Ret a
       /\ coopurl.generateId "http://example.com" 8 t0 = Ret b
       /\ a = Strings.take (Z.to_nat 4) b.
Proof.
  split; [lia |].
  apply (generateId_shorter_is_prefix "http://example.com" t0 4 8). lia.
Defined.

(** X13 at work. *)
Lemma Post_uses_handler_defaults_witness :
  exists id d' e,
    coopurl.Post short_lived "example.com" [coopurl.WithLength 3] t0 t0
    = (Ret (Ok id), coopurl.set_db (Some d') short_lived)
    /\ String.length id = 12%nat
    /\ badger.items d' !! id = Some e
    /\ badger.Value e = "http://example.com"
    /\ badger.ExpiresAt e = 1600000001.
Proof.
  destruct (Post_uses_handler_defaults short_lived (badger.mkDB false ∅)
              "example.com" [coopurl.WithLength 3] t0 t0 bare_example_com)
    as (id & d' & e & HPost & Hlen & Hlook & Hval & Hexp).
  - reflexivity.
  - reflexivity.
  - vm_compute. reflexivity.
  - vm_compute. discriminate.
  - exists id, d', e. split; [exact HPost |]. split; [exact Hlen |].
    split; [exact Hlook |]. split; [rewrite Hval | rewrite Hexp];
      vm_compute; reflexivity.
Defined.

(** X14 at work. *)
Lemma New_ready_witness :
  coopurl.New [coopurl.WithDbPath "/var/links"]
  = Ok (coopurl.WithDbPath "/var/links" fresh)
  /\ exists d,
       coopurl.db (coopurl.WithDbPath "/var/links" fresh) = Some d
       /\ badger_Open (coopurl.getPath (coopurl.WithDbPath "/var/links" fresh)) = Ok d
       /\ coopurl.getPath (coopurl.WithDbPath "/var/links" fresh) <> ""
       /\ coopurl.init (coopurl.WithDbPath "/var/links" fresh)
          = (None, coopurl.WithDbPath "/var/links" fresh).
Proof.
  split; [reflexivity |].
  apply (New_ready [coopurl.WithDbPath "/var/links"]). reflexivity.
Defined.

(** X15 at work: the later of two default lengths wins. *)
Lemma New_applies_options_witness :
  exists h,
    coopurl.New ([coopurl.WithDefaultLength 3]
                 ++ [coopurl.WithDefaultLength 12; coopurl.WithDbPath "/var/links";
                     coopurl.WithDefaultTTL 5]) = Ok h
    /\ coopurl.path h = "/var/links" /\ coopurl.TTL h = 5 /\ coopurl.Length h = 12.
Proof.
  eexists. split; [reflexivity |].
  apply (New_applies_options [coopurl.WithDefaultLength 3] "/var/links" 5 12
           [coopurl.WithDefaultLength 12; coopurl.WithDbPath "/var/links";
            coopurl.WithDefaultTTL 5]).
  - apply (Permutation_app_comm [coopurl.WithDefaultLength 12]
             [coopurl.WithDbPath "/var/links"; coopurl.WithDefaultTTL 5]).
  - reflexivity.
Defined.

(** X16 at work. *)
Lemma ServeHTTP_answers_witness :
  exists w',
    coopurl.ServeHTTP posted http.NewRecorder (http.mkRequest "GET" "/r/unknown") t1
    = (Ret w', posted)
    /\ (http.status w' = Some http.StatusMovedPermanently
        \/ http.status w' = Some http.StatusInternalServerError).
Proof.
  apply (ServeHTTP_answers posted one_link http.NewRecorder
           (http.mkRequest "GET" "/r/unknown") t1).
  - reflexivity.
  - reflexivity.
Defined.


(** X18 at work. *)
Lemma run_never_deletes_witness :
  exists d1,
    snd (coopurl.run posted
           [coopurl.Call_Post "example.org" [] t1 t1; coopurl.Call_Get "c43d99a9" t1])
    = coopurl.set_db (Some d1) posted
    /\ badger.closed d1 = badger.closed one_link
    /\ forall k, is_Some (badger.items one_link !! k) -> is_Some (badger.items d1 !! k).
Proof.
  apply (run_never_deletes posted one_link). reflexivity.
Defined.


(** X20 at work. *)
Lemma posted_link_redirects_absolute_witness :
  exists w',
    coopurl.ServeHTTP posted http.NewRecorder (http.mkRequest "GET" "/r/c43d99a9") t1
    = (Ret w', posted)
    /\ http.status w' = Some http.StatusMovedPermanently
    /\ http.sent_header "Location" w' = Some ["http://example.com"].
Proof.
  destruct (posted_link_redirects_absolute fresh "example.com" [] t0 t0 "c43d99a9"
              posted http.NewRecorder (http.mkRequest "GET" "/r/c43d99a9") t1 "/r")
    as (u & w' & Hu & Hserve & Hanswer).
  - vm_compute. reflexivity.
  - reflexivity.
  - reflexivity.
  - reflexivity.
  - exists w'. split; [exact Hserve |].
    assert (u = bare_example_com) as ->
      by (vm_compute in Hu; injection Hu as <-; reflexivity).
    change (url.String (normalized bare_example_com)) with "http://example.com"
      in Hanswer.
    rewrite Parse_example_com in Hanswer. destruct Hanswer as [Hstatus Hloc].
    split; [exact Hstatus |]. rewrite Hloc. vm_compute. reflexivity.
Defined.

(** X21 at work. *)
Lemma ServeShort_shows_stored_link_witness :
  exists id d1 e,
    badger.items d1 !! id = Some e
    /\ main.ServeShort fresh http.NewRecorder submission t0 t0
       = (Ret (main.execute
                 (example_page "layout"
                    (main.mkShortData
                       ((if String.eqb (main.Host submission) "" then ""
                         else url.escape (main.Host submission) url.encodeHost ++ "/")
                        ++ "r/" ++ id)
                       "example.com" (badger.Value e))) http.NewRecorder),
          coopurl.set_db (Some d1) fresh).
Proof.
  apply (ServeShort_shows_stored_link fresh (badger.mkDB false ∅) http.NewRecorder
           submission "example.com" [] t0 t0 bare_example_com example_page).
  - reflexivity.
  - reflexivity.
  - reflexivity.
  - vm_compute. reflexivity.
  - vm_compute. reflexivity.
  - vm_compute. discriminate.
  - reflexivity.
Defined.

(** X22 at work: an empty submission. *)
Lemma ServeShort_error_stores_nothing_witness :
  main.ServeShort posted http.NewRecorder empty_submission t1 t1
  = (Ret (http.WriteHeader 400 http.NewRecorder), posted)
  /\ snd (main.ServeShort posted http.NewRecorder empty_submission t1 t1) = posted.
Proof.
  split; [vm_compute; reflexivity |].
  apply (ServeShort_error_stores_nothing posted one_link http.NewRecorder
           empty_submission t1 t1 (http.WriteHeader 400 http.NewRecorder)).
  - reflexivity.
  - reflexivity.
  - vm_compute. reflexivity.
  - left. vm_compute. reflexivity.
Defined.

(** X23 at work, on the broken disk. *)
Lemma ServeHTTP_lazy_open_witness :
  @coopurl.ServeHTTP Example.clock broken_disk unopened http.NewRecorder
    (http.mkRequest "GET" "/r/c43d99a9") t1
  = (Ret (http.WriteHeader http.StatusInternalServerError http.NewRecorder), unopened).
Proof.
  exact (@ServeHTTP_lazy_open Example.clock broken_disk unopened http.NewRecorder
           (http.mkRequest "GET" "/r/c43d99a9") t1 eq_refl).
Defined.

(** X24 at work: the empty submission is a bad request, the one with
    a URL is not. *)
Lemma ServeShort_bad_request_witness :
  (http.status (http.WriteHeader main.StatusBadRequest http.NewRecorder)
   = Some main.StatusBadRequest
   <-> main.ParseForm empty_submission = None
       /\ (main.Form empty_submission !! "u" = None
           \/ main.Form empty_submission !! "u" = Some []))
  /\ (http.status (main.execute "short.example/r/c43d99a9 -> http://example.com"
                     http.NewRecorder)
      = Some main.StatusBadRequest
      <-> main.ParseForm submission = None
          /\ (main.Form submission !! "u" = None
              \/ main.Form submission !! "u" = Some [])).
Proof.
  split.
  - apply (ServeShort_bad_request posted http.NewRecorder empty_submission t1 t1
             (http.WriteHeader main.StatusBadRequest http.NewRecorder) posted).
    + reflexivity.
    + vm_compute. reflexivity.
  - apply (ServeShort_bad_request fresh http.NewRecorder submission t0 t0
             (main.execute "short.example/r/c43d99a9 -> http://example.com"
                http.NewRecorder) posted).
    + reflexivity.
    + vm_compute. reflexivity.
Defined.

(** X25 at work. *)
Lemma ServeShort_template_failure_witness :
  exists id d1 e m,
    @main.ServeShort Example.clock Example.storage no_pages fresh http.NewRecorder
      submission t0 t0
    = (Panic m, coopurl.set_db (Some d1) fresh)
    /\ badger.items d1 !! id = Some e
    /\ badger.Value e = url.String (normalized bare_example_com).
Proof.
  apply (@ServeShort_template_failure Example.clock Example.storage no_pages fresh
           (badger.mkDB false ∅) http.NewRecorder submission "example.com" [] t0 t0
           bare_example_com
           (errorString "open templates/layout.html: no such file or directory")).
  - reflexivity.
  - reflexivity.
  - reflexivity.
  - vm_compute. reflexivity.
  - vm_compute. reflexivity.
  - vm_compute. discriminate.
  - reflexivity.
Defined.
